(** * Futures spread construction and stationarity report

    A shallow embedding of [process_futures.py] (the spread builder) and of
    [cointegration_analysis.py] (the [CointegrationAnalyzer] class), together
    with the properties of their join, spread, labelling, aggregation and
    formatting logic.

    Conventions of the embedding:
    - Python [float] is IEEE binary64, modelled by Rocq's primitive floats;
    - Python [str] is modelled by [string] (a byte string, UTF-8 for the
      Chinese literals); case conversion acts on the ASCII letters;
    - raising is modelled by the [Raise] branch of [result];
    - a pandas [DataFrame] is an ordered list of named, typed columns;
    - library routines whose numerics are outside this repository
      ([statsmodels.adfuller], pandas' date parser) and the contents of the
      file system are parameters of the model. *)

From Stdlib Require Import ZArith List String Ascii Bool Lia Arith.
From Stdlib Require Import PrimFloat FloatOps SpecFloat.
From Stdlib Require Import DecimalString.
From Stdlib Require FloatAxioms.
Import ListNotations.

Set Warnings "-inexact-float".
Set Implicit Arguments.

Open Scope string_scope.
Open Scope list_scope.

(* ================================================================== *)
(** * Part I: definitions *)
(* ================================================================== *)

(** ** Python runtime: exceptions and control flow *)

Module Py.

(** An exception object: its class name and its message. *)
Record exn : Type := mk_exn { exn_class : string; exn_msg : string }.

Inductive result (A : Type) : Type :=
| Ok (a : A)
| Raise (e : exn).
Arguments Ok {A} a.
Arguments Raise {A} e.

Definition bind {A B} (m : result A) (k : A -> result B) : result B :=
  match m with
  | Ok a => k a
  | Raise e => Raise e
  end.

(** [try: body  except Exception as e: handler e]; every [exn] of the
    model is an instance of [Exception]. *)
Definition try_except {A} (body : result A) (handler : exn -> result A)
  : result A :=
  match body with
  | Ok a => Ok a
  | Raise e => handler e
  end.

(** A [for] loop threading an accumulator, stopping at the first raise. *)
Fixpoint for_each {A S} (xs : list A) (body : S -> A -> result S) (s : S)
  : result S :=
  match xs with
  | [] => Ok s
  | x :: xs' => bind (body s x) (for_each xs' body)
  end.

(** A list comprehension whose element expression may raise. *)
Fixpoint map_m {A B} (f : A -> result B) (xs : list A) : result (list B) :=
  match xs with
  | [] => Ok []
  | x :: xs' =>
      bind (f x) (fun y => bind (map_m f xs') (fun ys => Ok (y :: ys)))
  end.

Definition FileNotFoundError (msg : string) := mk_exn "FileNotFoundError" msg.
Definition KeyError (msg : string) := mk_exn "KeyError" msg.
Definition IndexError (msg : string) := mk_exn "IndexError" msg.
Definition ValueError (msg : string) := mk_exn "ValueError" msg.
Definition TypeError (msg : string) := mk_exn "TypeError" msg.

(** [range(a, b)] and [enumerate(xs)]. *)
Definition range (a b : nat) : list nat := seq a (b - a).
Definition enumerate {A} (xs : list A) : list (nat * A) :=
  combine (seq 0 (List.length xs)) xs.

(** [xs[i]] on a list. *)
Definition index {A} (xs : list A) (i : nat) : result A :=
  match nth_error xs i with
  | Some x => Ok x
  | None => Raise (IndexError "list index out of range")
  end.

(** [xs[-n:]]: the last [n] elements (all of them when there are fewer). *)
Definition last_n {A} (n : nat) (xs : list A) : list A :=
  skipn (List.length xs - n) xs.

(** *** Strings *)

Definition upper_char (c : ascii) : ascii :=
  let n := nat_of_ascii c in
  if (97 <=? n)%nat && (n <=? 122)%nat then ascii_of_nat (n - 32) else c.

Definition lower_char (c : ascii) : ascii :=
  let n := nat_of_ascii c in
  if (65 <=? n)%nat && (n <=? 90)%nat then ascii_of_nat (n + 32) else c.

Fixpoint map_string (f : ascii -> ascii) (s : string) : string :=
  match s with
  | EmptyString => EmptyString
  | String c t => String (f c) (map_string f t)
  end.

(** [s.upper()] and [s.lower()]. *)
Definition upper (s : string) : string := map_string upper_char s.
Definition lower (s : string) : string := map_string lower_char s.

(** [s.startswith(p)]. *)
Definition startswith (s p : string) : bool := String.prefix p s.

(** [s.split(sep)] for a one-character separator. *)
Fixpoint split (sep : ascii) (s : string) : list string :=
  match s with
  | EmptyString => [EmptyString]
  | String c t =>
      if Ascii.eqb c sep then EmptyString :: split sep t
      else match split sep t with
           | h :: r => String c h :: r
           | [] => [String c EmptyString]
           end
  end.

(** [str(n)] / [f"{n}"] for a non-negative integer. *)
Definition str_of_nat (n : nat) : string :=
  NilZero.string_of_uint (Nat.to_uint n).

(** *** Dictionaries

    A [dict] keeps insertion order; assigning to a key that is present
    replaces the value in place. *)

Definition dict (V : Type) : Type := list (string * V).

Fixpoint dict_set {V} (k : string) (v : V) (d : dict V) : dict V :=
  match d with
  | [] => [(k, v)]
  | (k', v') :: d' =>
      if String.eqb k' k then (k, v) :: d' else (k', v') :: dict_set k v d'
  end.

Fixpoint dict_get {V} (k : string) (d : dict V) : option V :=
  match d with
  | [] => None
  | (k', v') :: d' => if String.eqb k' k then Some v' else dict_get k d'
  end.

Definition keys {V} (d : dict V) : list string := map fst d.

End Py.

Import Py.

Declare Scope py_scope.
Delimit Scope py_scope with py.
Notation "x <- m ;; k" := (bind m (fun x => k))
  (at level 61, m at next level, right associativity) : py_scope.
Open Scope py_scope.

(** ** Float helpers *)

Definition is_nan (x : float) : bool := negb (PrimFloat.eqb x x).

Definition is_finite (x : float) : bool :=
  match Prim2SF x with
  | S754_zero _ | S754_finite _ _ _ => true
  | _ => false
  end.

(** Conversion of an [int64] value to [float64] (round to nearest even). *)
Definition float_of_Z (z : Z) : float :=
  SF2Prim (binary_normalize prec emax z 0 false).

(** Two's complement wrap-around of [int64] arithmetic. *)
Definition wrap64 (z : Z) : Z :=
  ((z + 2 ^ 63) mod 2 ^ 64 - 2 ^ 63)%Z.

(** ** pandas: typed columns and data frames *)

Module Pd.

Record datetime : Type := mk_datetime { year : Z; month : Z; day : Z }.

Inductive cell : Type :=
| VInt (z : Z)
| VFloat (x : float)
| VStr (s : string)
| VDate (d : datetime).

Inductive column : Type :=
| IntCol (l : list Z)
| FloatCol (l : list float)
| StrCol (l : list string)
| DateCol (l : list datetime).

(** Columns in display order; names are unique in a frame read from CSV. *)
Definition DataFrame : Type := list (string * column).

Definition columns (df : DataFrame) : list string := map fst df.

Definition cells (c : column) : list cell :=
  match c with
  | IntCol l => map VInt l
  | FloatCol l => map VFloat l
  | StrCol l => map VStr l
  | DateCol l => map VDate l
  end.

Definition col_len (c : column) : nat := List.length (cells c).

(** [c.iloc[p]]. *)
Definition col_nth (c : column) (p : nat) : option cell :=
  nth_error (cells c) p.

(** [df[name]]. *)
Fixpoint get_col (name : string) (df : DataFrame) : result column :=
  match df with
  | [] => Raise (KeyError name)
  | (n, c) :: df' => if String.eqb n name then Ok c else get_col name df'
  end.

(** [df[name] = c]: replaces the column in place or appends a new one. *)
Fixpoint set_col (name : string) (c : column) (df : DataFrame) : DataFrame :=
  match df with
  | [] => [(name, c)]
  | (n, c') :: df' =>
      if String.eqb n name then (name, c) :: df'
      else (n, c') :: set_col name c df'
  end.

(** [df.rename(columns={old: new})]. *)
Definition rename (old new : string) (df : DataFrame) : DataFrame :=
  map (fun nc => (if String.eqb (fst nc) old then new else fst nc, snd nc)) df.

(** [df[[n1, n2, ...]]]. *)
Definition select (names : list string) (df : DataFrame) : result DataFrame :=
  map_m (fun n => c <- get_col n df ;; Ok (n, c)) names.

(** [c.take(idx)]: the rows of [c] at the positions [idx]. *)
Definition take_col (idx : list nat) (c : column) : column :=
  match c with
  | IntCol l => IntCol (map (fun i => nth i l 0%Z) idx)
  | FloatCol l => FloatCol (map (fun i => nth i l nan) idx)
  | StrCol l => StrCol (map (fun i => nth i l EmptyString) idx)
  | DateCol l => DateCol (map (fun i => nth i l (mk_datetime 0 0 0)) idx)
  end.

(** Positions [j0 + j] of the key [k] in the right key column. *)
Fixpoint positions (k : Z) (rk : list Z) (j0 : nat) : list nat :=
  match rk with
  | [] => []
  | x :: rk' =>
      if Z.eqb x k then j0 :: positions k rk' (S j0)
      else positions k rk' (S j0)
  end.

(** Inner-join indexers: for every left row (in left order) the matching
    right rows (in right order). *)
Fixpoint join_indexers (lk rk : list Z) (i0 : nat) : list (nat * nat) :=
  match lk with
  | [] => []
  | k :: lk' =>
      map (pair i0) (positions k rk 0) ++ join_indexers lk' rk (S i0)
  end.

(** pandas appends [_x] / [_y] to a non-key column name that occurs on
    both sides. *)
Definition suffixed (on : string) (others : list string) (sfx n : string)
  : string :=
  if negb (String.eqb n on) && existsb (String.eqb n) others
  then n ++ sfx else n.

(** [pd.merge(left, right, on=on, how='inner')] for an integer key. *)
Definition merge (left right : DataFrame) (on : string) : result DataFrame :=
  lk <- get_col on left ;;
  rk <- get_col on right ;;
  match lk, rk with
  | IntCol lks, IntCol rks =>
      let ix := join_indexers lks rks 0 in
      Ok (map (fun nc => (suffixed on (columns right) "_x" (fst nc),
                          take_col (map fst ix) (snd nc))) left
          ++
          map (fun nc => (suffixed on (columns left) "_y" (fst nc),
                          take_col (map snd ix) (snd nc)))
              (filter (fun nc => negb (String.eqb (fst nc) on)) right))
  | _, _ => Raise (TypeError "merge key outside the modelled dtypes")
  end.

(** Element-wise [a - b] of two aligned columns. *)
Fixpoint zip_with {A B C} (f : A -> B -> C) (xs : list A) (ys : list B)
  : list C :=
  match xs, ys with
  | x :: xs', y :: ys' => f x y :: zip_with f xs' ys'
  | _, _ => []
  end.

Definition sub_col (a b : column) : result column :=
  match a, b with
  | FloatCol xs, FloatCol ys => Ok (FloatCol (zip_with PrimFloat.sub xs ys))
  | IntCol xs, IntCol ys =>
      Ok (IntCol (zip_with (fun x y => wrap64 (x - y)) xs ys))
  | IntCol xs, FloatCol ys =>
      Ok (FloatCol (zip_with PrimFloat.sub (map float_of_Z xs) ys))
  | FloatCol xs, IntCol ys =>
      Ok (FloatCol (zip_with PrimFloat.sub xs (map float_of_Z ys)))
  | _, _ => Raise (TypeError "unsupported operand type(s) for -")
  end.

(** [series.dropna()]: NaN is the missing value of a float column. *)
Definition dropna (c : column) : column :=
  match c with
  | FloatCol l => FloatCol (filter (fun x => negb (is_nan x)) l)
  | _ => c
  end.

Fixpoint map_opt {A B} (f : A -> option B) (xs : list A) : option (list B) :=
  match xs with
  | [] => Some []
  | x :: xs' =>
      match f x, map_opt f xs' with
      | Some y, Some ys => Some (y :: ys)
      | _, _ => None
      end
  end.

(** [pd.to_datetime(c, format=fmt)], given the element parser. *)
Definition to_datetime
  (parse : option string -> cell -> option datetime)
  (fmt : option string) (c : column) : result column :=
  match map_opt (parse fmt) (cells c) with
  | Some ds => Ok (DateCol ds)
  | None => Raise (ValueError "time data does not match format")
  end.

End Pd.

Import Pd.

(** ** [process_futures.py] *)

Section ProcessFutures.

(** The CSV files of the working directory, already parsed. *)
Variable fs : string -> option DataFrame.
(** pandas' parser of one date value. *)
Variable parse_datetime : option string -> cell -> option datetime.

(** [pd.read_csv(path)]. *)
Definition read_csv (path : string) : result DataFrame :=
  match fs path with
  | Some df => Ok df
  | None => Raise (FileNotFoundError path)
  end.

Definition close_name (futures_type : string) (i : nat) : string :=
  "close_" ++ futures_type ++ str_of_nat i.

Definition spread_name (futures_type : string) (i j : nat) : string :=
  "price_spread_" ++ futures_type ++ str_of_nat i
    ++ "_" ++ futures_type ++ str_of_nat j.

(** Lines 20-25: select the two columns and rename [close]. *)
Definition select_legs (futures_type : string) (raw : list DataFrame)
  : result (list DataFrame) :=
  map_m (fun idf =>
           df_sel <- select ["trade_date"; "close"] (snd idf) ;;
           Ok (rename "close" (close_name futures_type (fst idf)) df_sel))
        (enumerate raw).

(** Lines 28-30: sequential inner join on [trade_date]. *)
Definition merge_legs (dfs : list DataFrame) : result DataFrame :=
  merged_df <- index dfs 0 ;;
  for_each (tl dfs)
           (fun merged_df df => merge merged_df df "trade_date")
           merged_df.

(** The pairs visited by
    [for i in range(3): for j in range(i+1, 4)], in order. *)
Definition leg_pairs : list (nat * nat) :=
  flat_map (fun i => map (pair i) (range (i + 1) 4)) (range 0 3).

(** Lines 33-36: one derived column per visited pair. *)
Definition add_spreads (futures_type : string) (merged_df : DataFrame)
  : result DataFrame :=
  for_each (range 0 3)
    (fun merged_df i =>
       for_each (range (i + 1) 4)
         (fun merged_df j =>
            let col_name := spread_name futures_type i j in
            a <- get_col (close_name futures_type i) merged_df ;;
            b <- get_col (close_name futures_type j) merged_df ;;
            d <- sub_col a b ;;
            Ok (set_col col_name d merged_df))
         merged_df)
    merged_df.

(** Line 39: [trade_date] becomes a datetime column. *)
Definition convert_dates (merged_df : DataFrame) : result DataFrame :=
  c <- get_col "trade_date" merged_df ;;
  d <- to_datetime parse_datetime (Some "%Y%m%d") c ;;
  Ok (set_col "trade_date" d merged_df).

Definition process_futures_data (futures_type : string) : result DataFrame :=
  df0 <- read_csv (upper futures_type ++ "00.csv") ;;
  df1 <- read_csv (upper futures_type ++ "01.csv") ;;
  df2 <- read_csv (upper futures_type ++ "02.csv") ;;
  df3 <- read_csv (upper futures_type ++ "03.csv") ;;
  dfs <- select_legs futures_type [df0; df1; df2; df3] ;;
  merged_df <- merge_legs dfs ;;
  merged_df <- add_spreads futures_type merged_df ;;
  convert_dates merged_df.

End ProcessFutures.

(** A concrete element parser, used in the examples: [YYYYMMDD] integers
    (whatever the format) and ISO [YYYY-MM-DD] strings. *)
Definition days_in_month (y m : Z) : Z :=
  if (m =? 2)%Z then
    if ((y mod 4 =? 0) && (negb (y mod 100 =? 0) || (y mod 400 =? 0)))%Z
    then 29 else 28
  else if ((m =? 4) || (m =? 6) || (m =? 9) || (m =? 11))%Z then 30 else 31.

Definition valid_ymd (y m d : Z) : bool :=
  ((1000 <=? y) && (y <=? 9999) && (1 <=? m) && (m <=? 12)
   && (1 <=? d) && (d <=? days_in_month y m))%Z.

Definition digit_val (c : ascii) : option Z :=
  let n := nat_of_ascii c in
  if (48 <=? n)%nat && (n <=? 57)%nat then Some (Z.of_nat (n - 48)) else None.

Fixpoint digits_val (s : string) (acc : Z) : option Z :=
  match s with
  | EmptyString => Some acc
  | String c t =>
      match digit_val c with
      | Some d => digits_val t (10 * acc + d)%Z
      | None => None
      end
  end.

Definition simple_parse_datetime (fmt : option string) (v : cell)
  : option datetime :=
  match v with
  | VInt z =>
      let y := (z / 10000)%Z in
      let m := ((z / 100) mod 100)%Z in
      let d := (z mod 100)%Z in
      if valid_ymd y m d then Some (mk_datetime y m d) else None
  | VStr s =>
      if (String.length s =? 10)%nat
         && String.eqb (substring 4 1 s) "-"
         && String.eqb (substring 7 1 s) "-" then
        match digits_val (substring 0 4 s) 0,
              digits_val (substring 5 2 s) 0,
              digits_val (substring 8 2 s) 0 with
        | Some y, Some m, Some d =>
            if valid_ymd y m d then Some (mk_datetime y m d) else None
        | _, _, _ => None
        end
      else None
  | VDate d => Some d
  | VFloat _ => None
  end.

(** A small working directory for the examples: four legs of family [if]
    with partly overlapping calendars. *)
Definition leg_frame (dates : list Z) (closes : list float) : DataFrame :=
  [("ts_code", StrCol (map (fun _ => "IF.CFX") dates));
   ("trade_date", IntCol dates);
   ("close", FloatCol closes)].

Definition example_dates (i : nat) : list Z :=
  match i with
  | 0 => [20230103; 20230104; 20230105; 20230106]%Z
  | 1 => [20230104; 20230105; 20230106; 20230109]%Z
  | 2 => [20230103; 20230105; 20230104; 20230106]%Z
  | _ => [20230106; 20230105; 20230104]%Z
  end.

Definition example_closes (i : nat) : list float :=
  match i with
  | 0 => [3900.2; 3910.4; 3925.0; 3931.6]%float
  | 1 => [3915.0; 3930.2; 3936.8; 3950.0]%float
  | 2 => [3902.0; 3934.4; 3921.8; 3940.2]%float
  | _ => [3950.0; 3941.0; 3930.6]%float
  end.

Definition example_fs (path : string) : option DataFrame :=
  if String.eqb path "IF00.csv" then
    Some (leg_frame (example_dates 0) (example_closes 0))
  else if String.eqb path "IF01.csv" then
    Some (leg_frame (example_dates 1) (example_closes 1))
  else if String.eqb path "IF02.csv" then
    Some (leg_frame (example_dates 2) (example_closes 2))
  else if String.eqb path "IF03.csv" then
    Some (leg_frame (example_dates 3) (example_closes 3))
  else None.

(** The table [process_futures_data] returns for the example family. *)
Definition example_table : DataFrame :=
  Eval vm_compute in
    match process_futures_data example_fs simple_parse_datetime "if" with
    | Ok T => T
    | Raise _ => []
    end.

(** ** [cointegration_analysis.py] *)

(** The dictionary [{'1%': .., '5%': .., '10%': ..}] of critical values. *)
Record crit_values : Type := mk_crit {
  crit_1 : float;
  crit_5 : float;
  crit_10 : float
}.

(** The tuple returned by [adfuller(x, autolag='AIC')]:
    [(adfstat, pvalue, usedlag, nobs, critical values, icbest)]. *)
Record adf_output : Type := mk_adf_output {
  out_adfstat : float;
  out_pvalue : float;
  out_usedlag : nat;
  out_nobs : nat;
  out_crit : crit_values;
  out_icbest : float
}.

(** The dictionary built by [perform_adf_test]. *)
Record adf_result : Type := mk_adf_result {
  series_name : string;
  adf_statistic : float;
  p_value : float;
  critical_values : crit_values;
  is_stationary : bool
}.

(** One row of the summary table; the source's column headers are
    品种, 合约对, ADF统计量, p值, 1%临界值, 5%临界值, 10%临界值 and
    是否平稳(5%显著性). *)
Record summary_row : Type := mk_row {
  row_family : string;
  row_pair : string;
  row_adf : string;
  row_p : string;
  row_crit_1 : string;
  row_crit_5 : string;
  row_crit_10 : string;
  row_verdict : string
}.

(** The state of a [CointegrationAnalyzer] object. *)
Record analyzer : Type := mk_analyzer {
  futures_types : list string;
  results : dict (dict adf_result)
}.

(** *** The [:.4f] format *)

(** [a / b] rounded to the nearest integer, ties to even ([0 <= a], [0 < b]). *)
Definition round_half_even (a b : Z) : Z :=
  let q := (a / b)%Z in
  let r := (a mod b)%Z in
  if (2 * r <? b)%Z then q
  else if (b <? 2 * r)%Z then (q + 1)%Z
  else if Z.even q then q else (q + 1)%Z.

Definition digit_char (d : Z) : ascii := ascii_of_nat (48 + Z.to_nat d).

Definition str_of_Z_nonneg (n : Z) : string :=
  NilZero.string_of_uint (N.to_uint (Z.to_N n)).

(** The magnitude [n / 10^4], printed with exactly four decimals. *)
Definition fixed4_digits (n : Z) : string :=
  str_of_Z_nonneg (n / 10000)
  ++ "."
  ++ String (digit_char ((n / 1000) mod 10))
       (String (digit_char ((n / 100) mod 10))
          (String (digit_char ((n / 10) mod 10))
             (String (digit_char (n mod 10)) EmptyString))).

(** [|x| * 10^4] for [|x| = m * 2^e], correctly rounded to an integer. *)
Definition scaled4 (m : positive) (e : Z) : Z :=
  if (0 <=? e)%Z then (Zpos m * 2 ^ e * 10000)%Z
  else round_half_even (Zpos m * 10000) (2 ^ (- e)).

(** [f"{x:.4f}"]. *)
Definition format_4f (x : float) : string :=
  match Prim2SF x with
  | S754_nan => "nan"
  | S754_infinity s => if s then "-inf" else "inf"
  | S754_zero s => (if s then "-" else "") ++ "0.0000"
  | S754_finite s m e =>
      (if s then "-" else "") ++ fixed4_digits (scaled4 m e)
  end.





Section Cointegration.

(** The CSV files visible to the analyzer, already parsed. *)
Variable fs : string -> option DataFrame.
(** pandas' parser of one date value. *)
Variable parse_datetime : option string -> cell -> option datetime.
(** [statsmodels.tsa.stattools.adfuller(series, autolag='AIC')]. *)
Variable adfuller : column -> result adf_output.

(** [CointegrationAnalyzer(futures_types)]. *)
Definition init (futures_types : list string) : analyzer :=
  mk_analyzer (map lower futures_types) [].

Definition default_futures_types : list string := ["if"; "ih"; "ic"; "im"].

Definition spread_path (futures_type : string) : string :=
  "data/" ++ lower futures_type ++ "_spread.csv".

Definition load_data (futures_type : string) : result DataFrame :=
  let file_path := spread_path futures_type in
  match fs file_path with
  | None =>
      Raise (FileNotFoundError
               ("文件 " ++ file_path
                ++ " 不存在，请先运行 process_futures.py 生成数据")%string)
  | Some _ =>
      df <- read_csv fs file_path ;;
      c <- get_col "trade_date" df ;;
      d <- to_datetime parse_datetime None c ;;
      Ok (set_col "trade_date" d df)
  end.

Definition perform_adf_test (series : column) (series_name : string)
  : result adf_result :=
  let series := dropna series in
  result <- adfuller series ;;
  Ok (mk_adf_result series_name
                    (out_adfstat result)
                    (out_pvalue result)
                    (out_crit result)
                    (PrimFloat.leb (out_pvalue result) 0.05)).

(** Lines 77-78: the label of a spread column. *)
Definition pair_label (col : string) : result string :=
  let contracts := last_n 2 (split "_" col) in
  c0 <- index contracts 0 ;;
  c1 <- index contracts 1 ;;
  Ok (c0 ++ "-" ++ c1)%string.

Definition spread_cols (df : DataFrame) : list string :=
  filter (fun col => startswith col "price_spread") (columns df).

(** Lines 75-82: the body of the loop over the spread columns. *)
Definition test_column (df : DataFrame)
  (results : dict adf_result) (col : string) : result (dict adf_result) :=
  pair_name <- pair_label col ;;
  series <- get_col col df ;;
  result <- perform_adf_test series pair_name ;;
  Ok (dict_set pair_name result results).

Definition analyze_spread_combinations (futures_type : string)
  : result (dict adf_result) :=
  df <- load_data futures_type ;;
  for_each (spread_cols df) (test_column df) [].

(** Lines 90-97: the body of the loop over the families.  The handler
    only prints; the [print] calls do not affect control flow or the
    returned values and are left out. *)
Definition analyze_one (all_results : dict (dict adf_result)) (ft : string)
  : result (dict (dict adf_result)) :=
  try_except
    (results <- analyze_spread_combinations ft ;;
     Ok (dict_set (upper ft) results all_results))
    (fun e => Ok all_results).

Definition analyze_all_futures (self : analyzer)
  : result (analyzer * dict (dict adf_result)) :=
  all_results <- for_each (futures_types self) analyze_one [] ;;
  Ok (mk_analyzer (futures_types self) all_results, all_results).

Definition render_row (ft pair_name : string) (result : adf_result)
  : summary_row :=
  mk_row (upper ft)
         pair_name
         (format_4f (adf_statistic result))
         (format_4f (p_value result))
         (format_4f (crit_1 (critical_values result)))
         (format_4f (crit_5 (critical_values result)))
         (format_4f (crit_10 (critical_values result)))
         (if is_stationary result then "是" else "否").

(** Lines 107-120: the rows, family by family and pair by pair. *)
Definition summary_rows (results : dict (dict adf_result))
  : list summary_row :=
  flat_map (fun fc =>
              map (fun pr => render_row (fst fc) (fst pr) (snd pr)) (snd fc))
           results.

Definition generate_summary_table (self : analyzer)
  : result (analyzer * list summary_row) :=
  self <- match results self with
          | [] => r <- analyze_all_futures self ;; Ok (fst r)
          | _ :: _ => Ok self
          end ;;
  Ok (self, summary_rows (results self)).

End Cointegration.

(** A stand-in for [adfuller], used to run the examples: it reproduces the
    library's refusal of a constant series and otherwise reports fixed
    numbers depending on the first observation only. *)
Definition float_max (xs : list float) (x0 : float) : float :=
  fold_left (fun a b => if PrimFloat.ltb a b then b else a) xs x0.
Definition float_min (xs : list float) (x0 : float) : float :=
  fold_left (fun a b => if PrimFloat.ltb b a then b else a) xs x0.

Definition toy_adfuller (c : column) : result adf_output :=
  match c with
  | FloatCol (x :: xs) =>
      if PrimFloat.eqb (float_max xs x) (float_min xs x) then
        Raise (ValueError "Invalid input, x is constant")
      else if PrimFloat.ltb x (-5)%float then
        Ok (mk_adf_output (-3.9128) 0.00195 1 2 (mk_crit (-3.4369) (-2.8644) (-2.5683)) 12.5)
      else
        Ok (mk_adf_output (-1.25) 0.65215 0 3 (mk_crit (-3.4369) (-2.8644) (-2.5683)) 10.25)
  | _ => Raise (ValueError "zero-size array to reduction operation maximum")
  end.

(** An [adfuller] without the constant-series check, as a numerically naive
    regression behaves: a zero denominator yields NaN. *)
Definition naive_adfuller (c : column) : result adf_output :=
  match c with
  | FloatCol (x :: xs) =>
      let spread := PrimFloat.sub (float_max xs x) (float_min xs x) in
      let stat := PrimFloat.div (PrimFloat.sub x x) spread in
      Ok (mk_adf_output stat stat 0 (List.length xs)
                        (mk_crit (-3.4369) (-2.8644) (-2.5683)) 0)
  | _ => Raise (ValueError "zero-size array to reduction operation maximum")
  end.

(** The persisted spread table of the example family, as the analyzer
    reads it back: dates in ISO form, then the columns of
    [process_futures_data]. *)
Definition example_spread_frame : DataFrame :=
  [("trade_date", StrCol ["2023-01-04"; "2023-01-05"; "2023-01-06"]);
   ("close_if0", FloatCol [3910.4; 3925; 3931.6]%float);
   ("close_if1", FloatCol [3915; 3930.2; 3936.8]%float);
   ("close_if2", FloatCol [3921.8; 3934.4; 3940.2]%float);
   ("close_if3", FloatCol [3930.6; 3941; 3950]%float);
   ("price_spread_if0_if1", FloatCol [-4.6; -5.2; -5.3]%float);
   ("price_spread_if0_if2", FloatCol [-11.4; -9.4; -8.6]%float);
   ("price_spread_if0_if3", FloatCol [-20.2; -16; -18.4]%float);
   ("price_spread_if1_if2", FloatCol [-6.8; -4.2; -3.4]%float);
   ("price_spread_if1_if3", FloatCol [-15.6; -10.8; -13.2]%float);
   ("price_spread_if2_if3", FloatCol [-8.8; -6.6; -9.8]%float)].

(** Family [ih] has one constant spread column; family [ic] has no file. *)
Definition example_flat_frame : DataFrame :=
  [("trade_date", StrCol ["2023-01-04"; "2023-01-05"; "2023-01-06"]);
   ("price_spread_ih0_ih1", FloatCol [-4.6; -5.2; -5.3]%float);
   ("price_spread_ih0_ih2", FloatCol [2.5; 2.5; 2.5]%float);
   ("price_spread_ih1_ih2", FloatCol [-8.8; -6.6; -9.8]%float)].

Definition example_data_fs (path : string) : option DataFrame :=
  if String.eqb path "data/if_spread.csv" then Some example_spread_frame
  else if String.eqb path "data/ih_spread.csv" then Some example_flat_frame
  else if String.eqb path "data/im_spread.csv" then Some example_spread_frame
  else None.

(* ================================================================== *)
(** * Part II: properties *)
(* ================================================================== *)

(** ** Dictionaries *)

Section DictFacts.
Context {V : Type}.
Implicit Types (d : dict V) (k : string) (v : V).

Lemma dict_get_set_same k v d : dict_get k (dict_set k v d) = Some v.
Proof.
  induction d as [|[k' v'] d IH]; simpl.
  - now rewrite String.eqb_refl.
  - destruct (String.eqb k' k) eqn:E; simpl.
    + now rewrite String.eqb_refl.
    + now rewrite E.
Qed.


Lemma keys_dict_set_in k v d x :
  In x (keys (dict_set k v d)) <-> x = k \/ In x (keys d).
Proof.
  unfold keys. induction d as [|[k0 v0] d IH]; simpl.
  - intuition.
  - destruct (String.eqb k0 k) eqn:E; simpl.
    + apply String.eqb_eq in E; subst k0. intuition.
    + rewrite IH. intuition.
Qed.

Lemma keys_dict_set_nodup k v d :
  NoDup (keys d) -> NoDup (keys (dict_set k v d)).
Proof.
  unfold keys. induction d as [|[k0 v0] d IH]; simpl; intros Hnd.
  - constructor; [intros [] | constructor].
  - inversion Hnd as [|? ? Hnotin Hnd']; subst.
    destruct (String.eqb k0 k) eqn:E; simpl.
    + apply String.eqb_eq in E; subst k0. now constructor.
    + constructor; [|now apply IH].
      intros Hin. apply (keys_dict_set_in k v d k0) in Hin.
      destruct Hin as [->|Hin]; [|contradiction].
      now rewrite String.eqb_refl in E.
Qed.

Lemma dict_get_none_notin k d : ~ In k (keys d) -> dict_get k d = None.
Proof.
  unfold keys. induction d as [|[k0 v0] d IH]; simpl; intros Hn; [easy|].
  destruct (String.eqb k0 k) eqn:E.
  - apply String.eqb_eq in E. tauto.
  - apply IH. tauto.
Qed.

Lemma dict_get_in k v d : dict_get k d = Some v -> In (k, v) d.
Proof.
  induction d as [|[k0 v0] d IH]; simpl; [discriminate|].
  destruct (String.eqb k0 k) eqn:E.
  - apply String.eqb_eq in E. intros [= ->]. subst. now left.
  - intros H. right. now apply IH.
Qed.

End DictFacts.

(** ** Case conversion *)

Lemma upper_char_idem c : upper_char (upper_char c) = upper_char c.
Proof.
  destruct c as [[] [] [] [] [] [] [] []]; reflexivity.
Qed.




Lemma upper_idem s : upper (upper s) = upper s.
Proof.
  unfold upper. induction s as [|c s IH]; simpl; [reflexivity|].
  now rewrite upper_char_idem, IH.
Qed.



(** ** The ADF wrapper *)



Section AdfWrapper.
Variable adfuller : column -> result adf_output.

Lemma perform_adf_test_ok series name out :
  adfuller (dropna series) = Ok out ->
  perform_adf_test adfuller series name =
    Ok (mk_adf_result name (out_adfstat out) (out_pvalue out) (out_crit out)
                      (PrimFloat.leb (out_pvalue out) 0.05)).
Proof. intros H. unfold perform_adf_test. now rewrite H. Qed.


(** C3: whenever [perform_adf_test] returns, the recorded p-value is the
    one [adfuller] computed on the series without its missing values, and
    [is_stationary] is true exactly when that p-value is at most 0.05. *)
Theorem perform_adf_test_verdict series name r :
  perform_adf_test adfuller series name = Ok r ->
  exists out,
    adfuller (dropna series) = Ok out /\
    p_value r = out_pvalue out /\
    (is_stationary r = true <-> PrimFloat.leb (p_value r) 0.05 = true).
Proof.
  unfold perform_adf_test.
  destruct (adfuller (dropna series)) as [out|e]; simpl; [|discriminate].
  intros [= <-]. exists out. simpl. repeat split; auto.
Qed.


End AdfWrapper.

Lemma perform_adf_test_verdict_witness :
  exists r,
    perform_adf_test toy_adfuller (FloatCol [-4.6; nan; -5.2; -5.3]%float)
                     "if0-if1" = Ok r /\
    (is_stationary r = true <-> PrimFloat.leb (p_value r) 0.05 = true).
Proof.
  eexists. split; [reflexivity|].
  destruct (perform_adf_test_verdict toy_adfuller
              (FloatCol [-4.6; nan; -5.2; -5.3]%float) "if0-if1" eq_refl)
    as (out & _ & _ & H).
  exact H.
Defined.


(** ** Batch aggregation *)

Section Batch.
Variable fs : string -> option DataFrame.
Variable parse_datetime : option string -> cell -> option datetime.
Variable adfuller : column -> result adf_output.

Local Abbreviation analyze :=
  (analyze_spread_combinations fs parse_datetime adfuller).
Local Abbreviation step := (analyze_one fs parse_datetime adfuller).
Local Abbreviation run_all := (analyze_all_futures fs parse_datetime adfuller).
Local Abbreviation summary :=
  (generate_summary_table fs parse_datetime adfuller).

(** What one iteration of the family loop leaves in [all_results]. *)
Definition after_family (acc : dict (dict adf_result)) (ft : string)
  : dict (dict adf_result) :=
  match analyze ft with
  | Ok r => dict_set (upper ft) r acc
  | Raise _ => acc
  end.

Lemma analyze_one_total acc ft : step acc ft = Ok (after_family acc ft).
Proof.
  unfold analyze_one, after_family, try_except.
  destruct (analyze ft); reflexivity.
Qed.

Lemma family_loop_total fts acc :
  for_each fts step acc = Ok (fold_left after_family fts acc).
Proof.
  revert acc. induction fts as [|ft fts IH]; intros acc; simpl.
  - reflexivity.
  - rewrite analyze_one_total. simpl. apply IH.
Qed.

Lemma analyze_all_futures_total self :
  run_all self =
    Ok (mk_analyzer (futures_types self)
                    (fold_left after_family (futures_types self) []),
        fold_left after_family (futures_types self) []).
Proof.
  unfold analyze_all_futures. now rewrite family_loop_total.
Qed.











(** *** A failing pair inside a family *)




(** *** The summary table *)

(** C10: on an analyzer whose results mapping is empty,
    [generate_summary_table] behaves as [analyze_all_futures] followed by
    [generate_summary_table] (same table, same final state); on a
    non-empty mapping it renders the stored results and leaves the
    analyzer unchanged. *)
Theorem generate_summary_table_lazy (self : analyzer) :
  match results self with
  | [] =>
      summary self = (r <- run_all self ;; summary (fst r))
  | _ :: _ =>
      summary self = Ok (self, summary_rows (results self))
  end.
Proof.
  destruct self as [fts R]. simpl. destruct R as [|x R]; [|reflexivity].
  unfold generate_summary_table at 1. simpl results. cbv iota.
  rewrite analyze_all_futures_total. simpl.
  unfold generate_summary_table. simpl.
  destruct (fold_left after_family fts []) as [|y R'] eqn:E; [|reflexivity].
  rewrite analyze_all_futures_total. simpl. rewrite E. reflexivity.
Qed.

End Batch.

(** ** The [:.4f] format *)









(** The integer behind the printed digits is the correctly rounded value
    of [a / b]: it is within half a unit, ties going to the even side. *)
Lemma round_half_even_spec a b :
  (0 <= a)%Z -> (0 < b)%Z ->
  let q := round_half_even a b in
  (Z.abs (2 * (q * b - a)) <= b)%Z /\
  (Z.abs (2 * (q * b - a)) = b -> Z.even q = true)%Z.
Proof.
  intros Ha Hb. unfold round_half_even.
  pose proof (Z.div_mod a b ltac:(lia)) as Hdm.
  pose proof (Z.mod_pos_bound a b Hb) as Hr.
  destruct (2 * (a mod b) <? b)%Z eqn:E1; [apply Z.ltb_lt in E1|apply Z.ltb_ge in E1].
  - cbv zeta. split; [nia|]. intros H. nia.
  - destruct (b <? 2 * (a mod b))%Z eqn:E2;
      [apply Z.ltb_lt in E2|apply Z.ltb_ge in E2].
    + cbv zeta. split; [nia|]. intros H. nia.
    + destruct (Z.even (a / b)) eqn:E3; cbv zeta.
      * split; [nia|]. intros _. exact E3.
      * split; [nia|]. intros _.
        rewrite Z.even_add, E3. reflexivity.
Qed.

(** The digits printed for [m * 2^e] with [e < 0] stand for the integer
    nearest to [m * 2^e * 10^4], ties to even; for [0 <= e] the scaling is
    exact by definition. *)
Lemma scaled4_nearest m e :
  (e < 0)%Z ->
  (Z.abs (2 * (scaled4 m e * 2 ^ (- e) - Zpos m * 10000)) <= 2 ^ (- e))%Z /\
  (Z.abs (2 * (scaled4 m e * 2 ^ (- e) - Zpos m * 10000)) = 2 ^ (- e) ->
   Z.even (scaled4 m e) = true)%Z.
Proof.
  intros He. unfold scaled4.
  destruct (0 <=? e)%Z eqn:E; [apply Z.leb_le in E; lia|].
  apply round_half_even_spec; [lia|].
  apply Z.pow_pos_nonneg; lia.
Qed.

(** A float that is not finite is printed by name. *)
Lemma format_4f_not_finite x :
  is_finite x = false ->
  format_4f x = "nan" \/ format_4f x = "inf" \/ format_4f x = "-inf".
Proof.
  unfold is_finite, format_4f.
  destruct (Prim2SF x) as [s|s| |s m e]; try discriminate; intros _.
  - destruct s; auto.
  - auto.
Qed.

(** ** The summary table *)





Lemma Forall_dict_set {V} (P : string * V -> Prop) k v (d : dict V) :
  Forall P d -> P (k, v) -> Forall P (dict_set k v d).
Proof.
  intros Hd Hk. induction d as [|[k0 v0] d IH]; simpl.
  - constructor; auto.
  - inversion Hd; subst. destruct (String.eqb k0 k); constructor; auto.
Qed.



Section Summary.
Variable fs : string -> option DataFrame.
Variable parse_datetime : option string -> cell -> option datetime.
Variable adfuller : column -> result adf_output.

Local Abbreviation analyze :=
  (analyze_spread_combinations fs parse_datetime adfuller).
Local Abbreviation run_all := (analyze_all_futures fs parse_datetime adfuller).
Local Abbreviation summary :=
  (generate_summary_table fs parse_datetime adfuller).








Lemma summary_total self :
  summary self =
    Ok (match results self with
        | [] => mk_analyzer (futures_types self)
                  (fold_left (after_family fs parse_datetime adfuller)
                             (futures_types self) [])
        | _ :: _ => self
        end,
        summary_rows
          (match results self with
           | [] => fold_left (after_family fs parse_datetime adfuller)
                             (futures_types self) []
           | _ :: _ => results self
           end)).
Proof.
  unfold generate_summary_table.
  destruct (results self) eqn:E.
  - rewrite analyze_all_futures_total. reflexivity.
  - simpl. now rewrite E.
Qed.






End Summary.

(** ** Column names *)

Lemma eqb_app_l s a b : String.eqb (s ++ a) (s ++ b) = String.eqb a b.
Proof.
  induction s as [|c s IH]; simpl; [reflexivity|].
  now rewrite Ascii.eqb_refl.
Qed.

Ltac leg_cases i :=
  destruct i as [|[|[|[|i]]]]; [| | | |exfalso; lia].

Lemma close_name_eqb ft i j :
  i < 4 -> j < 4 ->
  String.eqb (close_name ft i) (close_name ft j) = Nat.eqb i j.
Proof.
  intros Hi Hj. unfold close_name. leg_cases i; leg_cases j;
    simpl; rewrite eqb_app_l; reflexivity.
Qed.

Lemma key_close_eqb ft i : String.eqb "trade_date" (close_name ft i) = false.
Proof. reflexivity. Qed.

Lemma close_key_eqb ft i : String.eqb (close_name ft i) "trade_date" = false.
Proof. reflexivity. Qed.

Lemma key_spread_eqb ft i j :
  String.eqb "trade_date" (spread_name ft i j) = false.
Proof. reflexivity. Qed.

Lemma close_spread_eqb ft k i j :
  String.eqb (close_name ft k) (spread_name ft i j) = false.
Proof. reflexivity. Qed.

Lemma spread_close_eqb ft k i j :
  String.eqb (spread_name ft i j) (close_name ft k) = false.
Proof. reflexivity. Qed.

Lemma spread_name_eqb ft a b i j :
  a < 4 -> b < 4 -> i < 4 -> j < 4 ->
  String.eqb (spread_name ft a b) (spread_name ft i j)
  = Nat.eqb a i && Nat.eqb b j.
Proof.
  intros Ha Hb Hi Hj. unfold spread_name.
  leg_cases a; leg_cases i; simpl; rewrite eqb_app_l; simpl;
    try reflexivity;
    leg_cases b; leg_cases j; simpl; rewrite eqb_app_l; reflexivity.
Qed.

Arguments close_name : simpl never.
Arguments spread_name : simpl never.

(** ** The inner join *)

(** The key column of a merge result. *)
Definition key_take (idx : list nat) (lk : list Z) : list Z :=
  map (fun i => nth i lk 0%Z) idx.

Definition mem_Z (rk : list Z) (k : Z) : bool := existsb (Z.eqb k) rk.

Lemma mem_Z_In rk k : mem_Z rk k = true <-> In k rk.
Proof.
  unfold mem_Z. rewrite existsb_exists. split.
  - intros (x & Hin & Hx). apply Z.eqb_eq in Hx. now subst.
  - intros Hin. exists k. split; [exact Hin | apply Z.eqb_refl].
Qed.

Lemma positions_spec k rk j0 j :
  In j (positions k rk j0) <-> j0 <= j /\ nth_error rk (j - j0) = Some k.
Proof.
  revert j0. induction rk as [|x rk IH]; intros j0; simpl.
  - split; [intros [] | intros [_ H]]. now destruct (j - j0).
  - destruct (Z.eqb_spec x k) as [->|Hne]; simpl; rewrite ?IH.
    + split.
      * intros [<-|[Hle Hn]].
        -- rewrite Nat.sub_diag. auto.
        -- split; [lia|]. replace (j - j0) with (S (j - S j0)) by lia.
           exact Hn.
      * intros [Hle Hn]. destruct (j - j0) as [|m] eqn:E.
        -- left. lia.
        -- right. split; [lia|]. now replace (j - S j0) with m by lia.
    + split.
      * intros [Hle Hn]. split; [lia|].
        now replace (j - j0) with (S (j - S j0)) by lia.
      * intros [Hle Hn]. destruct (j - j0) as [|m] eqn:E.
        -- simpl in Hn. congruence.
        -- split; [lia|]. now replace (j - S j0) with m by lia.
Qed.

Lemma positions_notin k rk j0 : ~ In k rk -> positions k rk j0 = [].
Proof.
  revert j0. induction rk as [|x rk IH]; intros j0 Hn; simpl; [reflexivity|].
  destruct (Z.eqb_spec x k) as [->|Hne].
  - exfalso. apply Hn. now left.
  - apply IH. intros H. apply Hn. now right.
Qed.

(** With unique right keys a left row has at most one match. *)
Lemma positions_unique k rk j0 :
  NoDup rk ->
  List.length (positions k rk j0) = if mem_Z rk k then 1 else 0.
Proof.
  intros Hnd. revert j0.
  induction Hnd as [|x rk Hnotin Hnd IH]; intros j0; simpl; [reflexivity|].
  unfold mem_Z. simpl. rewrite (Z.eqb_sym k x).
  destruct (Z.eqb_spec x k) as [->|Hne]; simpl.
  - now rewrite positions_notin.
  - apply IH.
Qed.

Lemma join_indexers_sound lk rk i0 i j :
  In (i, j) (join_indexers lk rk i0) ->
  i0 <= i /\
  exists k, nth_error lk (i - i0) = Some k /\ nth_error rk j = Some k.
Proof.
  revert i0. induction lk as [|k lk IH]; intros i0; simpl; [intros []|].
  intros Hin. apply in_app_or in Hin as [Hin|Hin].
  - apply in_map_iff in Hin as (j' & [= <- <-] & Hj).
    apply positions_spec in Hj as [_ Hj]. rewrite Nat.sub_0_r in Hj.
    split; [lia|]. exists k. rewrite Nat.sub_diag. auto.
  - apply IH in Hin as (Hle & k' & Hl & Hr).
    split; [lia|]. exists k'.
    replace (i - i0) with (S (i - S i0)) by lia. auto.
Qed.

(** The key column after a join on unique right keys: the left keys that
    occur on the right, in left order. *)
Lemma join_keys_filter rk :
  NoDup rk ->
  forall lk pre,
    key_take (map fst (join_indexers lk rk (List.length pre))) (pre ++ lk)
    = filter (mem_Z rk) lk.
Proof.
  intros Hnd. unfold key_take.
  induction lk as [|k lk IH]; intros pre; simpl; [reflexivity|].
  rewrite !map_app.
  specialize (IH (pre ++ [k])).
  rewrite length_app, <- app_assoc, Nat.add_1_r in IH. simpl in IH.
  rewrite IH, !map_map. simpl.
  rewrite (map_ext _ (fun _ => k)) by (intros; apply nth_middle).
  pose proof (positions_unique k 0 Hnd) as Hlen.
  destruct (mem_Z rk k);
    destruct (positions k rk 0) as [|j [|j' l]]; try discriminate Hlen;
    reflexivity.
Qed.

Lemma join_keys rk lk :
  NoDup rk ->
  key_take (map fst (join_indexers lk rk 0)) lk = filter (mem_Z rk) lk.
Proof. intros Hnd. exact (join_keys_filter Hnd lk []). Qed.

(** *** Rows of a merge result and their source rows *)

Lemma col_len_take idx c : col_len (take_col idx c) = List.length idx.
Proof.
  unfold col_len. destruct c; simpl; now rewrite !length_map.
Qed.

Lemma col_nth_take idx c p i :
  nth_error idx p = Some i -> i < col_len c ->
  col_nth (take_col idx c) p = col_nth c i.
Proof.
  unfold col_nth, col_len. intros Hp Hi.
  destruct c as [l|l|l|l]; simpl in *; rewrite length_map in Hi;
    rewrite !nth_error_map, Hp; simpl;
    match goal with
    | |- context [nth i l ?d] => now rewrite (nth_error_nth' l d Hi)
    end.
Qed.

(** Column [c] over the key column [dates] carries, in every row, the value
    that the source column [src] has in the source row with the same key. *)
Definition aligned (src_dates : list Z) (src : column)
  (dates : list Z) (c : column) : Prop :=
  col_len c = List.length dates /\
  forall p d, nth_error dates p = Some d ->
    exists q, nth_error src_dates q = Some d /\
              q < col_len src /\ col_nth c p = col_nth src q.

Lemma aligned_self dates c :
  col_len c = List.length dates -> aligned dates c dates c.
Proof.
  intros Hlen. split; [exact Hlen|]. intros p d Hp. exists p.
  split; [exact Hp|]. split; [|reflexivity].
  rewrite Hlen. apply nth_error_Some. congruence.
Qed.

Lemma join_row lk rk p d :
  nth_error (key_take (map fst (join_indexers lk rk 0)) lk) p = Some d ->
  exists i j,
    nth_error (join_indexers lk rk 0) p = Some (i, j) /\
    nth_error lk i = Some d /\ nth_error rk j = Some d.
Proof.
  unfold key_take. rewrite map_map, nth_error_map.
  destruct (nth_error (join_indexers lk rk 0) p) as [[i j]|] eqn:E;
    simpl; [|discriminate].
  intros [= <-]. exists i, j. split; [reflexivity|].
  apply nth_error_In in E. apply join_indexers_sound in E as (_ & k & Hl & Hr).
  rewrite Nat.sub_0_r in Hl.
  rewrite (nth_error_nth _ _ 0%Z Hl). auto.
Qed.

Lemma aligned_take_left sd src lk rk c :
  aligned sd src lk c ->
  aligned sd src (key_take (map fst (join_indexers lk rk 0)) lk)
          (take_col (map fst (join_indexers lk rk 0)) c).
Proof.
  intros [Hlen Hrows]. split.
  - rewrite col_len_take. unfold key_take. now rewrite !length_map.
  - intros p d Hp. apply join_row in Hp as (i & j & Hix & Hl & _).
    destruct (Hrows i d Hl) as (q & Hq & Hlt & Hc).
    exists q. split; [exact Hq|]. split; [exact Hlt|].
    rewrite <- Hc. apply col_nth_take.
    + now rewrite nth_error_map, Hix.
    + rewrite Hlen. apply nth_error_Some. congruence.
Qed.

Lemma aligned_take_right lk rk c :
  col_len c = List.length rk ->
  aligned rk c (key_take (map fst (join_indexers lk rk 0)) lk)
          (take_col (map snd (join_indexers lk rk 0)) c).
Proof.
  intros Hlen. split.
  - rewrite col_len_take. unfold key_take. now rewrite !length_map.
  - intros p d Hp. apply join_row in Hp as (i & j & Hix & _ & Hr).
    assert (Hj : j < col_len c)
      by (rewrite Hlen; apply nth_error_Some; congruence).
    exists j. split; [exact Hr|]. split; [exact Hj|].
    apply col_nth_take; [|exact Hj].
    now rewrite nth_error_map, Hix.
Qed.

(** ** The spread builder, stage by stage *)

Lemma suffixed_left_fresh n (lcols : list (string * column)) m cm :
  forallb (fun nc => negb (String.eqb (fst nc) "trade_date")
                     && negb (String.eqb (fst nc) n)) lcols = true ->
  In (m, cm) lcols ->
  suffixed "trade_date" ["trade_date"; n] "_x" m = m.
Proof.
  intros Hl Hin. rewrite forallb_forall in Hl. specialize (Hl _ Hin).
  cbn [fst] in Hl. apply andb_true_iff in Hl as [H1 H2].
  apply negb_true_iff in H1, H2.
  unfold suffixed. cbn [existsb]. now rewrite H1, H2.
Qed.

Lemma suffixed_right_fresh n (lcols : list (string * column)) :
  String.eqb n "trade_date" = false ->
  forallb (fun nc => negb (String.eqb (fst nc) "trade_date")
                     && negb (String.eqb (fst nc) n)) lcols = true ->
  suffixed "trade_date" ("trade_date" :: map fst lcols) "_y" n = n.
Proof.
  intros Hn Hl. unfold suffixed. cbn [existsb]. rewrite Hn. cbn [negb andb orb].
  replace (existsb (String.eqb n) (map fst lcols)) with false; [reflexivity|].
  symmetry. apply not_true_is_false. intros Hex.
  apply existsb_exists in Hex as (m & Hin & Hm).
  apply in_map_iff in Hin as ([m' cm] & <- & Hin).
  rewrite forallb_forall in Hl. specialize (Hl _ Hin). cbn [fst] in *.
  apply andb_true_iff in Hl as [_ H2]. apply negb_true_iff in H2.
  rewrite String.eqb_sym in Hm. congruence.
Qed.

(** One step of the sequential join: the left frame starts with the key
    column, the right frame is a selected leg; no column is renamed when the
    new leg's column name is fresh. *)
Lemma merge_step lk lcols rk n c :
  String.eqb n "trade_date" = false ->
  forallb (fun nc => negb (String.eqb (fst nc) "trade_date")
                     && negb (String.eqb (fst nc) n)) lcols = true ->
  merge (("trade_date", IntCol lk) :: lcols)
        [("trade_date", IntCol rk); (n, c)] "trade_date"
  = Ok (("trade_date",
         IntCol (key_take (map fst (join_indexers lk rk 0)) lk))
          :: map (fun nc => (fst nc,
                             take_col (map fst (join_indexers lk rk 0)) (snd nc)))
                 lcols
          ++ [(n, take_col (map snd (join_indexers lk rk 0)) c)]).
Proof.
  intros Hn Hl. unfold merge. cbn [get_col bind].
  change (String.eqb "trade_date" "trade_date") with true. cbv iota.
  cbn [bind columns map fst snd filter].
  change (String.eqb "trade_date" "trade_date") with true.
  rewrite Hn. cbn [negb filter map fst snd app].
  rewrite (@suffixed_right_fresh n lcols Hn Hl).
  rewrite (map_ext_in _ (fun nc => (fst nc,
             take_col (map fst (join_indexers lk rk 0)) (snd nc)))).
  - reflexivity.
  - intros [m cm] Hin. cbn [fst snd].
    now rewrite (@suffixed_left_fresh n lcols m cm Hl Hin).
Qed.

Definition leg_path (futures_type : string) (i : nat) : string :=
  (upper futures_type ++ "0" ++ str_of_nat i ++ ".csv")%string.

(** Leg [i] of the family is on disk, with integer [trade_date] column
    [ds] and [close] column [c]. *)
Definition leg_loaded (fs : string -> option DataFrame)
  (futures_type : string) (i : nat) (ds : list Z) (c : column) : Prop :=
  exists df,
    fs (leg_path futures_type i) = Some df /\
    get_col "trade_date" df = Ok (IntCol ds) /\
    get_col "close" df = Ok c.

(** The dates common to the four legs, in the order of leg 0. *)
Definition date_intersection (ds0 ds1 ds2 ds3 : list Z) : list Z :=
  filter (fun d => mem_Z ds1 d && mem_Z ds2 d && mem_Z ds3 d) ds0.

Section Joined.
Variables ds0 ds1 ds2 ds3 : list Z.

Definition ix1 := join_indexers ds0 ds1 0.
Definition keys1 := key_take (map fst ix1) ds0.
Definition ix2 := join_indexers keys1 ds2 0.
Definition keys2 := key_take (map fst ix2) keys1.
Definition ix3 := join_indexers keys2 ds3 0.
Definition keys3 := key_take (map fst ix3) keys2.

(** The close column of each leg after the three joins. *)
Definition joined_close (i : nat) (c : column) : column :=
  match i with
  | 0 => take_col (map fst ix3)
           (take_col (map fst ix2) (take_col (map fst ix1) c))
  | 1 => take_col (map fst ix3)
           (take_col (map fst ix2) (take_col (map snd ix1) c))
  | 2 => take_col (map fst ix3) (take_col (map snd ix2) c)
  | _ => take_col (map snd ix3) c
  end.

Lemma keys3_intersection :
  NoDup ds1 -> NoDup ds2 -> NoDup ds3 ->
  keys3 = date_intersection ds0 ds1 ds2 ds3.
Proof.
  intros H1 H2 H3. unfold keys3, ix3, keys2, ix2, keys1, ix1.
  rewrite (join_keys ds0 H1), (join_keys _ H2), (join_keys _ H3).
  unfold date_intersection.
  induction ds0 as [|d l IH]; simpl; [reflexivity|].
  destruct (mem_Z ds1 d); simpl; [|exact IH].
  destruct (mem_Z ds2 d); simpl; [|exact IH].
  destruct (mem_Z ds3 d); simpl; [now rewrite IH | exact IH].
Qed.

Lemma joined_close_aligned_0 c :
  col_len c = List.length ds0 -> aligned ds0 c keys3 (joined_close 0 c).
Proof.
  intros H. simpl. unfold keys3, keys2, keys1.
  now apply aligned_take_left, aligned_take_left, aligned_take_left,
    aligned_self.
Qed.

Lemma joined_close_aligned_1 c :
  col_len c = List.length ds1 -> aligned ds1 c keys3 (joined_close 1 c).
Proof.
  intros H. simpl. unfold keys3, keys2, keys1.
  now apply aligned_take_left, aligned_take_left, aligned_take_right.
Qed.

Lemma joined_close_aligned_2 c :
  col_len c = List.length ds2 -> aligned ds2 c keys3 (joined_close 2 c).
Proof.
  intros H. simpl. unfold keys3, keys2.
  now apply aligned_take_left, aligned_take_right.
Qed.

Lemma joined_close_aligned_3 c :
  col_len c = List.length ds3 -> aligned ds3 c keys3 (joined_close 3 c).
Proof.
  intros H. simpl. unfold keys3. now apply aligned_take_right.
Qed.

Lemma joined_close_len i c : col_len (joined_close i c) = List.length keys3.
Proof.
  unfold keys3, key_take. rewrite length_map.
  destruct i as [|[|[|i]]]; simpl; rewrite col_len_take;
    now rewrite !length_map.
Qed.

End Joined.

Section Pipeline.
Variable fs : string -> option DataFrame.
Variable parse_datetime : option string -> cell -> option datetime.
Variable ft : string.
Variables ds0 ds1 ds2 ds3 : list Z.
Variables c0 c1 c2 c3 : column.
Hypothesis L0 : leg_loaded fs ft 0 ds0 c0.
Hypothesis L1 : leg_loaded fs ft 1 ds1 c1.
Hypothesis L2 : leg_loaded fs ft 2 ds2 c2.
Hypothesis L3 : leg_loaded fs ft 3 ds3 c3.

Local Abbreviation k0 := (joined_close ds0 ds1 ds2 ds3 0 c0).
Local Abbreviation k1 := (joined_close ds0 ds1 ds2 ds3 1 c1).
Local Abbreviation k2 := (joined_close ds0 ds1 ds2 ds3 2 c2).
Local Abbreviation k3 := (joined_close ds0 ds1 ds2 ds3 3 c3).

Definition merged_frame : DataFrame :=
  [("trade_date", IntCol (keys3 ds0 ds1 ds2 ds3));
   (close_name ft 0, k0); (close_name ft 1, k1);
   (close_name ft 2, k2); (close_name ft 3, k3)].

Lemma merge_stage :
  (dfs <- select_legs ft
            match fs (leg_path ft 0), fs (leg_path ft 1),
                  fs (leg_path ft 2), fs (leg_path ft 3) with
            | Some df0, Some df1, Some df2, Some df3 => [df0; df1; df2; df3]
            | _, _, _, _ => []
            end ;;
   merge_legs dfs) = Ok merged_frame.
Proof.
  destruct L0 as (df0 & F0 & D0 & C0), L1 as (df1 & F1 & D1 & C1),
           L2 as (df2 & F2 & D2 & C2), L3 as (df3 & F3 & D3 & C3).
  rewrite F0, F1, F2, F3.
  unfold select_legs, select.
  cbn [enumerate List.length seq combine map_m fst snd bind].
  rewrite D0, D1, D2, D3, C0, C1, C2, C3. cbn [bind].
  unfold rename. cbn [map fst snd].
  change (String.eqb "trade_date" "close") with false.
  change (String.eqb "close" "close") with true. cbv iota.
  unfold merge_legs. cbn [index nth_error bind tl for_each].
  rewrite merge_step;
    [|reflexivity
     |cbn [forallb fst]; rewrite close_key_eqb, close_name_eqb by lia;
      reflexivity].
  cbn [bind map app fst snd].
  rewrite merge_step;
    [|reflexivity
     |cbn [forallb fst]; rewrite !close_key_eqb, !close_name_eqb by lia;
      reflexivity].
  cbn [bind map app fst snd].
  rewrite merge_step;
    [|reflexivity
     |cbn [forallb fst]; rewrite !close_key_eqb, !close_name_eqb by lia;
      reflexivity].
  reflexivity.
Qed.

Ltac names :=
  rewrite ?key_close_eqb, ?key_spread_eqb, ?close_spread_eqb,
    ?spread_close_eqb;
  rewrite ?close_name_eqb by lia;
  rewrite ?spread_name_eqb by lia;
  cbn [Nat.eqb andb].

Definition spread_frame (d : column) (a0 a1 a2 a3 : column)
  (s01 s02 s03 s12 s13 s23 : column) : DataFrame :=
  [("trade_date", d);
   (close_name ft 0, a0); (close_name ft 1, a1);
   (close_name ft 2, a2); (close_name ft 3, a3);
   (spread_name ft 0 1, s01); (spread_name ft 0 2, s02);
   (spread_name ft 0 3, s03); (spread_name ft 1 2, s12);
   (spread_name ft 1 3, s13); (spread_name ft 2 3, s23)].

Lemma add_spreads_eq d a0 a1 a2 a3 :
  add_spreads ft
    [("trade_date", d); (close_name ft 0, a0); (close_name ft 1, a1);
     (close_name ft 2, a2); (close_name ft 3, a3)]
  = (s01 <- sub_col a0 a1 ;; s02 <- sub_col a0 a2 ;;
     s03 <- sub_col a0 a3 ;; s12 <- sub_col a1 a2 ;;
     s13 <- sub_col a1 a3 ;; s23 <- sub_col a2 a3 ;;
     Ok (spread_frame d a0 a1 a2 a3 s01 s02 s03 s12 s13 s23)).
Proof.
  unfold add_spreads, range, spread_frame.
  cbn [Nat.sub Nat.add seq for_each].
  repeat (progress (cbn [set_col get_col bind]; names)).
  destruct (sub_col a0 a1) as [s01|e]; [|reflexivity].
  repeat (progress (cbn [set_col get_col bind]; names)).
  destruct (sub_col a0 a2) as [s02|e]; [|reflexivity].
  repeat (progress (cbn [set_col get_col bind]; names)).
  destruct (sub_col a0 a3) as [s03|e]; [|reflexivity].
  repeat (progress (cbn [set_col get_col bind]; names)).
  destruct (sub_col a1 a2) as [s12|e]; [|reflexivity].
  repeat (progress (cbn [set_col get_col bind]; names)).
  destruct (sub_col a1 a3) as [s13|e]; [|reflexivity].
  repeat (progress (cbn [set_col get_col bind]; names)).
  destruct (sub_col a2 a3) as [s23|e]; [|reflexivity].
  repeat (progress (cbn [set_col get_col bind]; names)).
  reflexivity.
Qed.

(** The whole of [process_futures_data] on four loaded legs. *)
Lemma process_futures_data_eq :
  process_futures_data fs parse_datetime ft
  = (s01 <- sub_col k0 k1 ;; s02 <- sub_col k0 k2 ;;
     s03 <- sub_col k0 k3 ;; s12 <- sub_col k1 k2 ;;
     s13 <- sub_col k1 k3 ;; s23 <- sub_col k2 k3 ;;
     d <- to_datetime parse_datetime (Some "%Y%m%d")
            (IntCol (keys3 ds0 ds1 ds2 ds3)) ;;
     Ok (spread_frame d k0 k1 k2 k3 s01 s02 s03 s12 s13 s23)).
Proof.
  pose proof merge_stage as Hm.
  unfold process_futures_data, read_csv.
  destruct L0 as (df0 & F0 & D0 & C0), L1 as (df1 & F1 & D1 & C1),
           L2 as (df2 & F2 & D2 & C2), L3 as (df3 & F3 & D3 & C3).
  rewrite F0, F1, F2, F3 in Hm.
  change (leg_path ft 0) with (upper ft ++ "00.csv")%string in F0.
  change (leg_path ft 1) with (upper ft ++ "01.csv")%string in F1.
  change (leg_path ft 2) with (upper ft ++ "02.csv")%string in F2.
  change (leg_path ft 3) with (upper ft ++ "03.csv")%string in F3.
  rewrite F0, F1, F2, F3. cbn [bind].
  destruct (select_legs ft [df0; df1; df2; df3]) as [dfs|e];
    cbn [bind] in Hm |- *; [|discriminate Hm].
  rewrite Hm. cbn [bind]. unfold merged_frame.
  rewrite add_spreads_eq.
  destruct (sub_col k0 k1) as [s01|e]; cbn [bind]; [|reflexivity].
  destruct (sub_col k0 k2) as [s02|e]; cbn [bind]; [|reflexivity].
  destruct (sub_col k0 k3) as [s03|e]; cbn [bind]; [|reflexivity].
  destruct (sub_col k1 k2) as [s12|e]; cbn [bind]; [|reflexivity].
  destruct (sub_col k1 k3) as [s13|e]; cbn [bind]; [|reflexivity].
  destruct (sub_col k2 k3) as [s23|e]; cbn [bind]; [|reflexivity].
  unfold convert_dates, spread_frame. cbn [get_col].
  change (String.eqb "trade_date" "trade_date") with true. cbv iota.
  cbn [bind].
  destruct (to_datetime parse_datetime (Some "%Y%m%d")
              (IntCol (keys3 ds0 ds1 ds2 ds3))) as [d|e]; cbn [bind];
    [|reflexivity].
  cbn [set_col].
  change (String.eqb "trade_date" "trade_date") with true. reflexivity.
Qed.

End Pipeline.

(** ** Properties of the spread table *)

Fixpoint nodupb (l : list string) : bool :=
  match l with
  | [] => true
  | x :: t => negb (existsb (String.eqb x) t) && nodupb t
  end.

Lemma nodupb_NoDup l : nodupb l = true -> NoDup l.
Proof.
  induction l as [|x t IH]; simpl; intros H; constructor.
  - apply andb_true_iff in H as [H _]. apply negb_true_iff in H.
    intros Hin. apply not_true_iff_false in H. apply H.
    apply existsb_exists. exists x. split; [exact Hin | apply String.eqb_refl].
  - apply andb_true_iff in H as [_ H]. now apply IH.
Qed.

Lemma leg_pairs_spec i j : In (i, j) leg_pairs <-> i < j <= 3.
Proof.
  unfold leg_pairs, range. simpl. split.
  - intros H. repeat (destruct H as [[= <- <-]|H]; [lia|]). destruct H.
  - intros [H1 H2].
    destruct i as [|[|[|i]]]; destruct j as [|[|[|[|j]]]]; try lia; tauto.
Qed.

Lemma leg_pairs_nodup : NoDup leg_pairs /\ List.length leg_pairs = 6.
Proof.
  split; [|reflexivity].
  unfold leg_pairs, range. simpl.
  repeat (constructor; [simpl; intros H;
                        repeat (destruct H as [[=]|H]); exact H|]).
  constructor.
Qed.

Definition spread_names (ft : string) : list string :=
  map (fun ij => spread_name ft (fst ij) (snd ij)) leg_pairs.

Definition close_names (ft : string) : list string :=
  map (close_name ft) [0; 1; 2; 3].

Lemma nth_error_zip_with {A B C} (f : A -> B -> C) xs ys p :
  nth_error (zip_with f xs ys) p =
  match nth_error xs p, nth_error ys p with
  | Some x, Some y => Some (f x y)
  | _, _ => None
  end.
Proof.
  revert ys p. induction xs as [|x xs IH]; intros [|y ys] [|p]; simpl;
    try reflexivity.
  - now destruct (nth_error xs p).
  - apply IH.
Qed.

Lemma length_zip_with {A B C} (f : A -> B -> C) xs ys :
  List.length (zip_with f xs ys) = Nat.min (List.length xs) (List.length ys).
Proof.
  revert ys. induction xs as [|x xs IH]; intros [|y ys]; simpl; auto.
Qed.

Lemma nth_error_map_some {A B} (f : A -> B) l p y :
  nth_error (map f l) p = Some y -> exists x, nth_error l p = Some x /\ y = f x.
Proof.
  rewrite nth_error_map. destruct (nth_error l p) as [x|]; simpl;
    [|discriminate].
  intros [= <-]. now exists x.
Qed.

(** Row by row, the difference of two float columns is the IEEE
    subtraction of the two values. *)
Lemma sub_col_float_row a b s p x y :
  sub_col a b = Ok s ->
  col_nth a p = Some (VFloat x) -> col_nth b p = Some (VFloat y) ->
  col_nth s p = Some (VFloat (PrimFloat.sub x y)).
Proof.
  unfold col_nth.
  destruct a as [xs|xs|xs|xs], b as [ys|ys|ys|ys]; simpl; try discriminate;
    intros [= <-] Ha Hb;
    apply nth_error_map_some in Ha as (x' & Ha & Hx);
    apply nth_error_map_some in Hb as (y' & Hb & Hy);
    try discriminate Hx; try discriminate Hy.
  injection Hx as ->. injection Hy as ->.
  simpl. now rewrite nth_error_map, nth_error_zip_with, Ha, Hb.
Qed.

Lemma sub_col_len a b s n :
  sub_col a b = Ok s -> col_len a = n -> col_len b = n -> col_len s = n.
Proof.
  unfold col_len.
  destruct a as [xs|xs|xs|xs], b as [ys|ys|ys|ys]; simpl; try discriminate;
    intros [= <-]; simpl; rewrite !length_map, ?length_zip_with,
      ?length_map; lia.
Qed.

Definition is_numeric (c : column) : bool :=
  match c with
  | IntCol _ | FloatCol _ => true
  | _ => false
  end.

Lemma sub_col_numeric a b :
  is_numeric a = true -> is_numeric b = true -> exists s, sub_col a b = Ok s.
Proof.
  destruct a, b; simpl; try discriminate; intros _ _; eexists; reflexivity.
Qed.

Lemma is_numeric_take idx c : is_numeric (take_col idx c) = is_numeric c.
Proof. now destruct c. Qed.

Lemma is_numeric_joined ds0 ds1 ds2 ds3 i c :
  is_numeric (joined_close ds0 ds1 ds2 ds3 i c) = is_numeric c.
Proof.
  destruct i as [|[|[|i]]]; simpl; now rewrite !is_numeric_take.
Qed.

Lemma map_opt_length {A B} (f : A -> option B) xs ys :
  map_opt f xs = Some ys -> List.length ys = List.length xs.
Proof.
  revert ys. induction xs as [|x xs IH]; simpl; intros ys.
  - now intros [= <-].
  - destruct (f x); [|discriminate].
    destruct (map_opt f xs) as [ys'|]; [|discriminate].
    intros [= <-]. simpl. now rewrite (IH ys').
Qed.

Lemma date_intersection_spec ds0 ds1 ds2 ds3 d :
  In d (date_intersection ds0 ds1 ds2 ds3) <->
  In d ds0 /\ In d ds1 /\ In d ds2 /\ In d ds3.
Proof.
  unfold date_intersection. rewrite filter_In, !andb_true_iff, !mem_Z_In.
  tauto.
Qed.

(** Leg [i] is on disk as a well-formed frame with unique dates. *)
Definition leg_unique (fs : string -> option DataFrame)
  (futures_type : string) (i : nat) (ds : list Z) (c : column) : Prop :=
  leg_loaded fs futures_type i ds c /\
  col_len c = List.length ds /\
  NoDup ds.

Section SpreadTable.
Variable fs : string -> option DataFrame.
Variable parse_datetime : option string -> cell -> option datetime.
Variable ft : string.
Variables ds0 ds1 ds2 ds3 : list Z.
Variables c0 c1 c2 c3 : column.

Local Abbreviation process := (process_futures_data fs parse_datetime).
Local Abbreviation k0 := (joined_close ds0 ds1 ds2 ds3 0 c0).
Local Abbreviation k1 := (joined_close ds0 ds1 ds2 ds3 1 c1).
Local Abbreviation k2 := (joined_close ds0 ds1 ds2 ds3 2 c2).
Local Abbreviation k3 := (joined_close ds0 ds1 ds2 ds3 3 c3).

(** The table returned on four loaded legs, with its parts named. *)
Lemma process_futures_data_inv T :
  leg_loaded fs ft 0 ds0 c0 -> leg_loaded fs ft 1 ds1 c1 ->
  leg_loaded fs ft 2 ds2 c2 -> leg_loaded fs ft 3 ds3 c3 ->
  process ft = Ok T ->
  exists s01 s02 s03 s12 s13 s23 d,
    sub_col k0 k1 = Ok s01 /\ sub_col k0 k2 = Ok s02 /\
    sub_col k0 k3 = Ok s03 /\ sub_col k1 k2 = Ok s12 /\
    sub_col k1 k3 = Ok s13 /\ sub_col k2 k3 = Ok s23 /\
    to_datetime parse_datetime (Some "%Y%m%d")
      (IntCol (keys3 ds0 ds1 ds2 ds3)) = Ok d /\
    T = spread_frame ft d k0 k1 k2 k3 s01 s02 s03 s12 s13 s23.
Proof.
  intros L0 L1 L2 L3.
  rewrite (process_futures_data_eq parse_datetime L0 L1 L2 L3).
  destruct (sub_col k0 k1) as [s01|]; cbn [bind]; [|discriminate].
  destruct (sub_col k0 k2) as [s02|]; cbn [bind]; [|discriminate].
  destruct (sub_col k0 k3) as [s03|]; cbn [bind]; [|discriminate].
  destruct (sub_col k1 k2) as [s12|]; cbn [bind]; [|discriminate].
  destruct (sub_col k1 k3) as [s13|]; cbn [bind]; [|discriminate].
  destruct (sub_col k2 k3) as [s23|]; cbn [bind]; [|discriminate].
  destruct (to_datetime _ _ _) as [d|]; cbn [bind]; [|discriminate].
  intros [= <-]. exists s01, s02, s03, s12, s13, s23, d.
  repeat split; reflexivity.
Qed.

Lemma spread_frame_columns d a0 a1 a2 a3 s01 s02 s03 s12 s13 s23 :
  columns (spread_frame ft d a0 a1 a2 a3 s01 s02 s03 s12 s13 s23)
  = "trade_date" :: close_names ft ++ spread_names ft.
Proof. reflexivity. Qed.

Lemma table_columns_nodup :
  NoDup ("trade_date" :: close_names ft ++ spread_names ft).
Proof.
  apply nodupb_NoDup.
  unfold close_names, spread_names, leg_pairs, range.
  cbn [map flat_map seq app Nat.sub Nat.add fst snd nodupb existsb].
  rewrite ?key_close_eqb, ?key_spread_eqb, ?close_spread_eqb,
    ?spread_close_eqb.
  rewrite ?close_name_eqb by lia.
  rewrite ?spread_name_eqb by lia.
  reflexivity.
Qed.

(** C8: the table returned on four loaded legs has the key column, the
    four close columns and then exactly six appended spread columns, named
    after the pairs visited by the two loops; these pairs are the six
    pairs (i, j) with i < j <= 3, each once, and all eleven column names
    are different. *)
Theorem spread_columns_complete T :
  leg_loaded fs ft 0 ds0 c0 -> leg_loaded fs ft 1 ds1 c1 ->
  leg_loaded fs ft 2 ds2 c2 -> leg_loaded fs ft 3 ds3 c3 ->
  process ft = Ok T ->
  columns T = "trade_date" :: close_names ft ++ spread_names ft /\
  NoDup (columns T) /\
  List.length (spread_names ft) = 6 /\
  NoDup leg_pairs /\
  (forall i j, In (i, j) leg_pairs <-> i < j <= 3).
Proof.
  intros L0 L1 L2 L3 HT.
  destruct (process_futures_data_inv L0 L1 L2 L3 HT)
    as (s01 & s02 & s03 & s12 & s13 & s23 & d & _ & _ & _ & _ & _ & _ & _ & ->).
  rewrite spread_frame_columns.
  split; [reflexivity|]. split; [apply table_columns_nodup|].
  split; [reflexivity|]. split; [apply leg_pairs_nodup|].
  apply leg_pairs_spec.
Qed.

(** C2: in the table returned on four loaded legs, for every pair
    i < j <= 3 the column [price_spread] of the pair is the column
    difference of the two close columns of the same table; row by row,
    for float closes [x] and [y] its value is the single IEEE
    subtraction [x - y]. *)
Theorem spread_is_difference T i j :
  leg_loaded fs ft 0 ds0 c0 -> leg_loaded fs ft 1 ds1 c1 ->
  leg_loaded fs ft 2 ds2 c2 -> leg_loaded fs ft 3 ds3 c3 ->
  process ft = Ok T ->
  i < j <= 3 ->
  exists a b s,
    get_col (close_name ft i) T = Ok a /\
    get_col (close_name ft j) T = Ok b /\
    get_col (spread_name ft i j) T = Ok s /\
    sub_col a b = Ok s /\
    forall p x y,
      col_nth a p = Some (VFloat x) -> col_nth b p = Some (VFloat y) ->
      col_nth s p = Some (VFloat (PrimFloat.sub x y)).
Proof.
  intros L0 L1 L2 L3 HT Hij.
  destruct (process_futures_data_inv L0 L1 L2 L3 HT)
    as (s01 & s02 & s03 & s12 & s13 & s23 & d
        & H01 & H02 & H03 & H12 & H13 & H23 & _ & ->).
  unfold spread_frame.
  destruct i as [|[|[|i]]]; destruct j as [|[|[|[|j]]]]; try lia;
    eexists _, _, _;
    (split; [|split; [|split; [|split]]]);
    try (cbn [get_col];
         rewrite ?key_close_eqb, ?key_spread_eqb, ?close_spread_eqb,
           ?spread_close_eqb;
         rewrite ?close_name_eqb by lia;
         rewrite ?spread_name_eqb by lia;
         cbn [Nat.eqb andb]; reflexivity);
    try eassumption;
    intros p x y; apply sub_col_float_row; assumption.
Qed.

Local Abbreviation common := (date_intersection ds0 ds1 ds2 ds3).

(** C1: for four loaded legs with unique dates, the dates common to the
    four legs form a duplicate-free list; every returned table has
    exactly these dates (parsed) as its [trade_date] column, so its row
    count is the cardinality of the intersection, every column has that
    many rows, and in every row each [close] column holds the close of
    that leg's source row with the row's date.  A table is returned
    whenever the close columns are numeric and the common dates parse. *)
Theorem join_correct :
  leg_unique fs ft 0 ds0 c0 -> leg_unique fs ft 1 ds1 c1 ->
  leg_unique fs ft 2 ds2 c2 -> leg_unique fs ft 3 ds3 c3 ->
  NoDup common /\
  (forall d, In d common <->
             In d ds0 /\ In d ds1 /\ In d ds2 /\ In d ds3) /\
  (forall T, process ft = Ok T ->
     exists dc a0 a1 a2 a3,
       get_col "trade_date" T = Ok (DateCol dc) /\
       map_opt (parse_datetime (Some "%Y%m%d")) (map VInt common)
         = Some dc /\
       List.length dc = List.length common /\
       Forall (fun nc => col_len (snd nc) = List.length common) T /\
       get_col (close_name ft 0) T = Ok a0 /\ aligned ds0 c0 common a0 /\
       get_col (close_name ft 1) T = Ok a1 /\ aligned ds1 c1 common a1 /\
       get_col (close_name ft 2) T = Ok a2 /\ aligned ds2 c2 common a2 /\
       get_col (close_name ft 3) T = Ok a3 /\ aligned ds3 c3 common a3) /\
  (is_numeric c0 = true -> is_numeric c1 = true ->
   is_numeric c2 = true -> is_numeric c3 = true ->
   forall dc,
     map_opt (parse_datetime (Some "%Y%m%d")) (map VInt common) = Some dc ->
     exists T, process ft = Ok T).
Proof.
  intros (L0 & Hl0 & N0) (L1 & Hl1 & N1) (L2 & Hl2 & N2) (L3 & Hl3 & N3).
  pose proof (keys3_intersection ds0 N1 N2 N3) as Hk.
  split; [apply NoDup_filter, N0|].
  split; [apply date_intersection_spec|].
  split.
  - intros T HT.
    destruct (process_futures_data_inv L0 L1 L2 L3 HT)
      as (s01 & s02 & s03 & s12 & s13 & s23 & d
          & H01 & H02 & H03 & H12 & H13 & H23 & Hd & ->).
    unfold to_datetime in Hd. rewrite Hk in Hd. cbn [cells] in Hd.
    destruct (map_opt _ _) as [dc|] eqn:Hdc; [|discriminate].
    injection Hd as <-.
    pose proof (map_opt_length _ _ Hdc) as Hlen.
    rewrite length_map in Hlen.
    assert (Hk0 : col_len k0 = List.length common)
      by (rewrite joined_close_len; now rewrite Hk).
    assert (Hk1 : col_len k1 = List.length common)
      by (rewrite joined_close_len; now rewrite Hk).
    assert (Hk2 : col_len k2 = List.length common)
      by (rewrite joined_close_len; now rewrite Hk).
    assert (Hk3 : col_len k3 = List.length common)
      by (rewrite joined_close_len; now rewrite Hk).
    exists dc, k0, k1, k2, k3.
    split; [reflexivity|]. split; [reflexivity|]. split; [exact Hlen|].
    split.
    { unfold spread_frame.
      repeat (apply Forall_cons; cbn [snd];
              [first [ exact Hk0 | exact Hk1 | exact Hk2 | exact Hk3
                     | eapply sub_col_len; eassumption
                     | unfold col_len; cbn [cells];
                       now rewrite length_map ]|]).
      constructor. }
    unfold spread_frame. cbn [get_col].
    rewrite ?key_close_eqb. rewrite ?close_name_eqb by lia.
    cbn [Nat.eqb]. rewrite <- Hk.
    repeat split;
      first [ now apply joined_close_aligned_0
            | now apply joined_close_aligned_1
            | now apply joined_close_aligned_2
            | now apply joined_close_aligned_3
            | apply joined_close_len ].
  - intros Hn0 Hn1 Hn2 Hn3 dc Hdc.
    rewrite (process_futures_data_eq parse_datetime L0 L1 L2 L3).
    destruct (@sub_col_numeric k0 k1) as [s01 ->];
      [now rewrite is_numeric_joined..|].
    destruct (@sub_col_numeric k0 k2) as [s02 ->];
      [now rewrite is_numeric_joined..|].
    destruct (@sub_col_numeric k0 k3) as [s03 ->];
      [now rewrite is_numeric_joined..|].
    destruct (@sub_col_numeric k1 k2) as [s12 ->];
      [now rewrite is_numeric_joined..|].
    destruct (@sub_col_numeric k1 k3) as [s13 ->];
      [now rewrite is_numeric_joined..|].
    destruct (@sub_col_numeric k2 k3) as [s23 ->];
      [now rewrite is_numeric_joined..|].
    cbn [bind]. unfold to_datetime. rewrite Hk. cbn [cells].
    rewrite Hdc. cbn [bind]. eexists. reflexivity.
Qed.

End SpreadTable.

(** ** Pair labels *)

Fixpoint no_char (c : ascii) (s : string) : bool :=
  match s with
  | EmptyString => true
  | String x t => negb (Ascii.eqb x c) && no_char c t
  end.

Lemma append_assoc (a b c : string) :
  ((a ++ b) ++ c = a ++ (b ++ c))%string.
Proof. induction a as [|x a IH]; simpl; [reflexivity | now rewrite IH]. Qed.

Lemma no_char_app c s t : no_char c (s ++ t) = no_char c s && no_char c t.
Proof.
  induction s as [|x s IH]; simpl; [reflexivity|].
  now rewrite IH, andb_assoc.
Qed.

Lemma split_no_sep sep s : no_char sep s = true -> split sep s = [s].
Proof.
  induction s as [|x s IH]; simpl; [reflexivity|].
  intros H. apply andb_true_iff in H as [Hx Hs]. apply negb_true_iff in Hx.
  now rewrite Hx, (IH Hs).
Qed.

Lemma split_app sep s t :
  no_char sep s = true ->
  split sep (s ++ String sep t) = s :: split sep t.
Proof.
  induction s as [|x s IH]; simpl.
  - intros _. now rewrite Ascii.eqb_refl.
  - intros H. apply andb_true_iff in H as [Hx Hs]. apply negb_true_iff in Hx.
    now rewrite Hx, (IH Hs).
Qed.

Definition leg_label (ft : string) (i : nat) : string :=
  (ft ++ str_of_nat i)%string.

Lemma spread_name_segments ft i j :
  spread_name ft i j
  = ("price" ++ String "_" ("spread" ++ String "_"
       (leg_label ft i ++ String "_" (leg_label ft j))))%string.
Proof.
  unfold spread_name, leg_label. simpl. now rewrite append_assoc.
Qed.

Lemma leg_label_no_underscore ft i :
  no_char "_" ft = true -> i < 4 -> no_char "_" (leg_label ft i) = true.
Proof.
  intros Hft Hi. unfold leg_label. rewrite no_char_app, Hft.
  leg_cases i; reflexivity.
Qed.

Lemma split_spread_name ft i j :
  no_char "_" ft = true -> i < 4 -> j < 4 ->
  split "_" (spread_name ft i j)
  = ["price"; "spread"; leg_label ft i; leg_label ft j].
Proof.
  intros Hft Hi Hj. rewrite spread_name_segments.
  rewrite split_app by reflexivity.
  rewrite split_app by reflexivity.
  rewrite split_app by now apply leg_label_no_underscore.
  rewrite split_no_sep by now apply leg_label_no_underscore.
  reflexivity.
Qed.

Lemma pair_label_spread_name ft i j :
  no_char "_" ft = true -> i < 4 -> j < 4 ->
  pair_label (spread_name ft i j)
  = Ok (leg_label ft i ++ "-" ++ leg_label ft j)%string.
Proof.
  intros Hft Hi Hj. unfold pair_label.
  rewrite split_spread_name by assumption. reflexivity.
Qed.

(** The example of the source comment: [price_spread_00_01] gives the
    pair [(00, 01)]. *)
Example pair_label_comment_example :
  pair_label "price_spread_00_01" = Ok "00-01".
Proof. reflexivity. Qed.

(** With an underscore in the symbol the label keeps only the last two
    segments of the column name. *)
Example pair_label_underscore_example :
  pair_label (spread_name "a_b" 0 1) = Ok "a-b1".
Proof. reflexivity. Qed.

Lemma spread_cols_spread_frame ft d a0 a1 a2 a3 s01 s02 s03 s12 s13 s23 :
  spread_cols (spread_frame ft d a0 a1 a2 a3 s01 s02 s03 s12 s13 s23)
  = spread_names ft.
Proof. reflexivity. Qed.

(** C5 (as the code has it): on four loaded legs of a family whose symbol
    has no underscore, the columns the tester selects from the returned
    table are the six spread columns, named
    [price_spread_<symbol><i>_<symbol><j>]; the label derived from such a
    column is [<symbol><i>-<symbol><j>], and it is both the key under
    which the test result is stored and the [series_name] recorded in
    it. *)
Theorem spread_labels fs parse_datetime ft ds0 ds1 ds2 ds3 c0 c1 c2 c3 T :
  no_char "_" ft = true ->
  leg_loaded fs ft 0 ds0 c0 -> leg_loaded fs ft 1 ds1 c1 ->
  leg_loaded fs ft 2 ds2 c2 -> leg_loaded fs ft 3 ds3 c3 ->
  process_futures_data fs parse_datetime ft = Ok T ->
  spread_cols T = spread_names ft /\
  forall i j, i < j <= 3 ->
    spread_name ft i j
    = ("price_spread_" ++ ft ++ str_of_nat i ++ "_" ++ ft ++ str_of_nat j)%string
    /\
    let label := (ft ++ str_of_nat i ++ "-" ++ ft ++ str_of_nat j)%string in
    pair_label (spread_name ft i j) = Ok label /\
    forall adfuller df acc acc',
      test_column adfuller df acc (spread_name ft i j) = Ok acc' ->
      exists r, dict_get label acc' = Some r /\ series_name r = label.
Proof.
  intros Hft L0 L1 L2 L3 HT.
  destruct (process_futures_data_inv parse_datetime L0 L1 L2 L3 HT)
    as (s01 & s02 & s03 & s12 & s13 & s23 & d & _ & _ & _ & _ & _ & _ & _ & ->).
  split; [apply spread_cols_spread_frame|].
  intros i j Hij. split; [reflexivity|].
  assert (Hl : pair_label (spread_name ft i j)
               = Ok (ft ++ str_of_nat i ++ "-" ++ ft ++ str_of_nat j)%string).
  { rewrite pair_label_spread_name by (assumption || lia).
    unfold leg_label. now rewrite append_assoc. }
  cbv zeta. split; [exact Hl|].
  intros adfuller df acc acc'. unfold test_column. rewrite Hl. cbn [bind].
  destruct (get_col _ df) as [c|]; cbn [bind]; [|discriminate].
  unfold perform_adf_test.
  destruct (adfuller (dropna c)) as [out|]; cbn [bind]; [|discriminate].
  intros [= <-]. eexists. split; [apply dict_get_set_same | reflexivity].
Qed.

(** C5 (as stated) fails: for the family [if] the first spread column is
    [price_spread_if0_if1], not [price_spread_0_1], and the label recorded
    for it is [if0-if1], not [0-1]. *)
Lemma spread_labels_counterexample :
  (exists T,
     process_futures_data example_fs simple_parse_datetime "if" = Ok T /\
     spread_cols T
     = ["price_spread_if0_if1"; "price_spread_if0_if2";
        "price_spread_if0_if3"; "price_spread_if1_if2";
        "price_spread_if1_if3"; "price_spread_if2_if3"] /\
     ~ In "price_spread_0_1" (columns T)) /\
  pair_label "price_spread_if0_if1" = Ok "if0-if1" /\
  pair_label "price_spread_if0_if1" <> Ok "0-1" /\
  (exists R,
     analyze_spread_combinations example_data_fs simple_parse_datetime
       toy_adfuller "if" = Ok R /\
     keys R = ["if0-if1"; "if0-if2"; "if0-if3"; "if1-if2"; "if1-if3";
               "if2-if3"] /\
     map (fun kv => series_name (snd kv)) R = keys R /\
     dict_get "0-1" R = None).
Proof.
  split; [|split; [|split]].
  - eexists. split; [vm_compute; reflexivity|].
    split; [reflexivity|].
    cbv [columns map fst]. intros H.
    repeat (destruct H as [H|H]; [discriminate H|]). exact H.
  - reflexivity.
  - discriminate.
  - eexists. split; [vm_compute; reflexivity|].
    split; [reflexivity|]. split; reflexivity.
Qed.

(** ** The theorems at work on the example data *)

Lemma example_table_returned :
  process_futures_data example_fs simple_parse_datetime "if" = Ok example_table.
Proof. vm_compute. reflexivity. Qed.

Lemma example_leg_loaded i :
  i < 4 ->
  leg_loaded example_fs "if" i (example_dates i) (FloatCol (example_closes i)).
Proof.
  intros Hi. leg_cases i; eexists; repeat split; reflexivity.
Qed.

Fixpoint nodup_Zb (l : list Z) : bool :=
  match l with
  | [] => true
  | x :: t => negb (mem_Z t x) && nodup_Zb t
  end.

Lemma nodup_Zb_NoDup l : nodup_Zb l = true -> NoDup l.
Proof.
  induction l as [|x t IH]; simpl; intros H; constructor.
  - apply andb_true_iff in H as [H _]. apply negb_true_iff in H.
    intros Hin. apply mem_Z_In in Hin. congruence.
  - apply andb_true_iff in H as [_ H]. now apply IH.
Qed.

Lemma example_leg_unique i :
  i < 4 ->
  leg_unique example_fs "if" i (example_dates i) (FloatCol (example_closes i)).
Proof.
  intros Hi. split; [now apply example_leg_loaded|].
  leg_cases i; (split; [reflexivity | apply nodup_Zb_NoDup; reflexivity]).
Qed.

Lemma join_correct_witness :
  date_intersection (example_dates 0) (example_dates 1)
                    (example_dates 2) (example_dates 3)
  = [20230104; 20230105; 20230106]%Z /\
  exists T dc a0,
    process_futures_data example_fs simple_parse_datetime "if" = Ok T /\
    get_col "trade_date" T = Ok (DateCol dc) /\
    List.length dc = 3 /\
    get_col (close_name "if" 0) T = Ok a0 /\
    aligned (example_dates 0) (FloatCol (example_closes 0))
            [20230104; 20230105; 20230106]%Z a0.
Proof.
  split; [reflexivity|].
  destruct (join_correct simple_parse_datetime
              (example_leg_unique (i := 0) ltac:(lia))
              (example_leg_unique (i := 1) ltac:(lia))
              (example_leg_unique (i := 2) ltac:(lia))
              (example_leg_unique (i := 3) ltac:(lia)))
    as (_ & _ & Hrows & _).
  destruct (Hrows example_table example_table_returned)
    as (dc & a0 & a1 & a2 & a3 & Hd & _ & Hlen & _ & H0 & Ha0 & _).
  exists example_table, dc, a0.
  split; [exact example_table_returned|]. split; [exact Hd|].
  split; [exact Hlen|]. split; [exact H0 | exact Ha0].
Defined.

Lemma spread_is_difference_witness :
  exists a b s,
    get_col (close_name "if" 0) example_table = Ok a /\
    get_col (close_name "if" 1) example_table = Ok b /\
    get_col (spread_name "if" 0 1) example_table = Ok s /\
    sub_col a b = Ok s /\
    forall p x y,
      col_nth a p = Some (VFloat x) -> col_nth b p = Some (VFloat y) ->
      col_nth s p = Some (VFloat (PrimFloat.sub x y)).
Proof.
  apply (spread_is_difference simple_parse_datetime
           (example_leg_loaded (i := 0) ltac:(lia))
           (example_leg_loaded (i := 1) ltac:(lia))
           (example_leg_loaded (i := 2) ltac:(lia))
           (example_leg_loaded (i := 3) ltac:(lia))
           example_table_returned).
  lia.
Defined.

Lemma spread_columns_complete_witness :
  columns example_table
  = "trade_date" :: close_names "if" ++ spread_names "if" /\
  NoDup (columns example_table) /\
  List.length (spread_names "if") = 6 /\
  NoDup leg_pairs /\
  (forall i j, In (i, j) leg_pairs <-> i < j <= 3).
Proof.
  exact (spread_columns_complete simple_parse_datetime
           (example_leg_loaded (i := 0) ltac:(lia))
           (example_leg_loaded (i := 1) ltac:(lia))
           (example_leg_loaded (i := 2) ltac:(lia))
           (example_leg_loaded (i := 3) ltac:(lia))
           example_table_returned).
Defined.

Lemma spread_labels_witness :
  spread_cols example_table = spread_names "if" /\
  pair_label (spread_name "if" 0 1) = Ok "if0-if1".
Proof.
  destruct (spread_labels (ft := "if") simple_parse_datetime eq_refl
              (example_leg_loaded (i := 0) ltac:(lia))
              (example_leg_loaded (i := 1) ltac:(lia))
              (example_leg_loaded (i := 2) ltac:(lia))
              (example_leg_loaded (i := 3) ltac:(lia))
              example_table_returned) as [Hcols Hlab].
  split; [exact Hcols|].
  destruct (Hlab 0 1 ltac:(lia)) as (_ & Hl & _). exact Hl.
Defined.




(* ================================================================== *)
(** * Part III: further properties of the two programs *)
(* ================================================================== *)

(** ** [process_futures_data]: failures and edge cases *)

Definition has_col (name : string) (df : DataFrame) : bool :=
  existsb (String.eqb name) (columns df).

Lemma get_col_cases name df :
  (has_col name df = false /\ get_col name df = Raise (KeyError name)) \/
  (has_col name df = true /\ exists c, get_col name df = Ok c).
Proof.
  unfold has_col, columns. induction df as [|[n c] df IH]; simpl.
  - left. auto.
  - rewrite (String.eqb_sym name n). destruct (String.eqb n name); simpl.
    + right. split; [reflexivity|]. now exists c.
    + exact IH.
Qed.

Lemma get_col_in_columns name df :
  In name (columns df) -> exists c, get_col name df = Ok c.
Proof.
  intros Hin. destruct (get_col_cases name df) as [[Hf _]|[_ H]]; [|exact H].
  exfalso. apply not_true_iff_false in Hf. apply Hf.
  unfold has_col. apply existsb_exists. exists name.
  split; [exact Hin | apply String.eqb_refl].
Qed.

(** X1: when leg [i] is the first of the four files that is absent, the
    builder raises [FileNotFoundError] for exactly that file. *)
Theorem process_futures_data_missing_file fs parse_datetime ft i :
  i < 4 ->
  (forall k, k < i -> fs (leg_path ft k) <> None) ->
  fs (leg_path ft i) = None ->
  process_futures_data fs parse_datetime ft
  = Raise (FileNotFoundError (leg_path ft i)).
Proof.
  intros Hi Hprev Hnone. unfold process_futures_data, read_csv.
  change (upper ft ++ "00.csv")%string with (leg_path ft 0).
  change (upper ft ++ "01.csv")%string with (leg_path ft 1).
  change (upper ft ++ "02.csv")%string with (leg_path ft 2).
  change (upper ft ++ "03.csv")%string with (leg_path ft 3).
  assert (H0 := Hprev 0). assert (H1 := Hprev 1). assert (H2 := Hprev 2).
  leg_cases i.
  - now rewrite Hnone.
  - destruct (fs (leg_path ft 0)); [|exfalso; apply H0; [lia|reflexivity]].
    cbn [bind]. now rewrite Hnone.
  - destruct (fs (leg_path ft 0)); [|exfalso; apply H0; [lia|reflexivity]].
    destruct (fs (leg_path ft 1)); [|exfalso; apply H1; [lia|reflexivity]].
    cbn [bind]. now rewrite Hnone.
  - destruct (fs (leg_path ft 0)); [|exfalso; apply H0; [lia|reflexivity]].
    destruct (fs (leg_path ft 1)); [|exfalso; apply H1; [lia|reflexivity]].
    destruct (fs (leg_path ft 2)); [|exfalso; apply H2; [lia|reflexivity]].
    cbn [bind]. now rewrite Hnone.
Qed.

Definition example_fs_without (missing : string) (path : string)
  : option DataFrame :=
  if String.eqb path missing then None else example_fs path.

Lemma process_futures_data_missing_file_witness :
  process_futures_data (example_fs_without "IF02.csv") simple_parse_datetime
    "if" = Raise (FileNotFoundError "IF02.csv").
Proof.
  apply (@process_futures_data_missing_file
           (example_fs_without "IF02.csv") simple_parse_datetime "if" 2).
  - lia.
  - intros k Hk. destruct k as [|[|k]]; [discriminate | discriminate | lia].
  - reflexivity.
Defined.

(** X2: when the four files exist but one of them lacks the [trade_date]
    or the [close] column, the builder raises [KeyError] on that column
    name and returns no table. *)
Theorem process_futures_data_missing_column
  fs parse_datetime ft df0 df1 df2 df3 :
  fs (leg_path ft 0) = Some df0 -> fs (leg_path ft 1) = Some df1 ->
  fs (leg_path ft 2) = Some df2 -> fs (leg_path ft 3) = Some df3 ->
  forallb (fun df => has_col "trade_date" df && has_col "close" df)
          [df0; df1; df2; df3] = false ->
  process_futures_data fs parse_datetime ft = Raise (KeyError "trade_date") \/
  process_futures_data fs parse_datetime ft = Raise (KeyError "close").
Proof.
  intros F0 F1 F2 F3 Hcols. unfold process_futures_data, read_csv.
  change (upper ft ++ "00.csv")%string with (leg_path ft 0).
  change (upper ft ++ "01.csv")%string with (leg_path ft 1).
  change (upper ft ++ "02.csv")%string with (leg_path ft 2).
  change (upper ft ++ "03.csv")%string with (leg_path ft 3).
  rewrite F0, F1, F2, F3. cbn [bind].
  unfold select_legs, select.
  cbn [enumerate List.length seq combine map_m fst snd bind].
  cbn [forallb] in Hcols.
  destruct (get_col_cases "trade_date" df0) as [[Hd0 ->]|[Hd0 [d0 ->]]];
    [left; reflexivity|]; cbn [bind].
  destruct (get_col_cases "close" df0) as [[Hc0 ->]|[Hc0 [x0 ->]]];
    [right; reflexivity|]; cbn [bind].
  destruct (get_col_cases "trade_date" df1) as [[Hd1 ->]|[Hd1 [d1 ->]]];
    [left; reflexivity|]; cbn [bind].
  destruct (get_col_cases "close" df1) as [[Hc1 ->]|[Hc1 [x1 ->]]];
    [right; reflexivity|]; cbn [bind].
  destruct (get_col_cases "trade_date" df2) as [[Hd2 ->]|[Hd2 [d2 ->]]];
    [left; reflexivity|]; cbn [bind].
  destruct (get_col_cases "close" df2) as [[Hc2 ->]|[Hc2 [x2 ->]]];
    [right; reflexivity|]; cbn [bind].
  destruct (get_col_cases "trade_date" df3) as [[Hd3 ->]|[Hd3 [d3 ->]]];
    [left; reflexivity|]; cbn [bind].
  destruct (get_col_cases "close" df3) as [[Hc3 ->]|[Hc3 [x3 ->]]];
    [right; reflexivity|]; cbn [bind].
  rewrite Hd0, Hc0, Hd1, Hc1, Hd2, Hc2, Hd3, Hc3 in Hcols. discriminate Hcols.
Qed.

Definition example_fs_no_close (path : string) : option DataFrame :=
  if String.eqb path "IF01.csv" then
    Some [("trade_date", IntCol (example_dates 1));
          ("settle", FloatCol (example_closes 1))]
  else example_fs path.

Lemma process_futures_data_missing_column_witness :
  process_futures_data example_fs_no_close simple_parse_datetime "if"
    = Raise (KeyError "trade_date") \/
  process_futures_data example_fs_no_close simple_parse_datetime "if"
    = Raise (KeyError "close").
Proof.
  apply (@process_futures_data_missing_column
           example_fs_no_close simple_parse_datetime "if"
           (leg_frame (example_dates 0) (example_closes 0))
           [("trade_date", IntCol (example_dates 1));
            ("settle", FloatCol (example_closes 1))]
           (leg_frame (example_dates 2) (example_closes 2))
           (leg_frame (example_dates 3) (example_closes 3)));
    reflexivity.
Defined.

(** ** Spread values in terms of the source files *)

Lemma aligned_float sd xs dates k p d :
  aligned sd (FloatCol xs) dates k ->
  nth_error dates p = Some d ->
  exists q x,
    nth_error sd q = Some d /\ nth_error xs q = Some x /\
    col_nth k p = Some (VFloat x).
Proof.
  intros [_ Hrows] Hp. destruct (Hrows p d Hp) as (q & Hq & Hlt & Hc).
  unfold col_len in Hlt. cbn [cells] in Hlt. rewrite length_map in Hlt.
  destruct (nth_error xs q) as [x|] eqn:Hx;
    [|apply nth_error_None in Hx; lia].
  exists q, x. split; [exact Hq|]. split; [exact Hx|].
  rewrite Hc. unfold col_nth. cbn [cells]. now rewrite nth_error_map, Hx.
Qed.

Section Sources.
Variable fs : string -> option DataFrame.
Variable parse_datetime : option string -> cell -> option datetime.
Variable ft : string.
(** Dates and close column of leg 0, 1, 2, 3. *)
Variable ds : nat -> list Z.
Variable cs : nat -> column.

Local Abbreviation common := (date_intersection (ds 0) (ds 1) (ds 2) (ds 3)).
Local Abbreviation joined i := (joined_close (ds 0) (ds 1) (ds 2) (ds 3) i (cs i)).

Lemma joined_aligned i :
  i < 4 ->
  (forall k, k < 4 -> leg_unique fs ft k (ds k) (cs k)) ->
  aligned (ds i) (cs i) common (joined i).
Proof.
  intros Hi Hlegs.
  destruct (Hlegs 0 ltac:(lia)) as (_ & Hl0 & _), (Hlegs 1 ltac:(lia))
    as (_ & Hl1 & N1), (Hlegs 2 ltac:(lia)) as (_ & Hl2 & N2),
    (Hlegs 3 ltac:(lia)) as (_ & Hl3 & N3).
  rewrite <- (keys3_intersection (ds 0) N1 N2 N3).
  leg_cases i.
  - now apply joined_close_aligned_0.
  - now apply joined_close_aligned_1.
  - now apply joined_close_aligned_2.
  - now apply joined_close_aligned_3.
Qed.

(** The spread column of a pair in the returned table. *)
Lemma table_spread_column T i j :
  (forall k, k < 4 -> leg_loaded fs ft k (ds k) (cs k)) ->
  process_futures_data fs parse_datetime ft = Ok T ->
  i < j <= 3 ->
  exists s,
    get_col (spread_name ft i j) T = Ok s /\
    sub_col (joined i) (joined j) = Ok s.
Proof.
  intros Hlegs HT Hij.
  destruct (process_futures_data_inv parse_datetime
              (Hlegs 0 ltac:(lia)) (Hlegs 1 ltac:(lia))
              (Hlegs 2 ltac:(lia)) (Hlegs 3 ltac:(lia)) HT)
    as (s01 & s02 & s03 & s12 & s13 & s23 & d
        & H01 & H02 & H03 & H12 & H13 & H23 & _ & ->).
  unfold spread_frame.
  destruct i as [|[|[|i]]]; destruct j as [|[|[|[|j]]]]; try lia;
    eexists; (split; [|eassumption]);
    cbn [get_col];
    rewrite ?key_spread_eqb, ?close_spread_eqb;
    rewrite ?spread_name_eqb by lia;
    cbn [Nat.eqb andb]; reflexivity.
Qed.

(** X3: every value of a spread column is the close of leg [i] minus the
    close of leg [j] taken from the two source files at the row's date:
    for unique dates and float closes [xs i], row [p] of the table has the
    [p]-th common date [d], and its spread for the pair (i, j) is
    [x - y] where [x] and [y] are the closes the two files give for
    [d]. *)
Theorem spread_from_sources (xs : nat -> list float) T i j :
  (forall k, k < 4 -> cs k = FloatCol (xs k)) ->
  (forall k, k < 4 -> leg_unique fs ft k (ds k) (cs k)) ->
  process_futures_data fs parse_datetime ft = Ok T ->
  i < j <= 3 ->
  exists s,
    get_col (spread_name ft i j) T = Ok s /\
    col_len s = List.length common /\
    forall p d, nth_error common p = Some d ->
      exists qi qj x y,
        nth_error (ds i) qi = Some d /\ nth_error (xs i) qi = Some x /\
        nth_error (ds j) qj = Some d /\ nth_error (xs j) qj = Some y /\
        col_nth s p = Some (VFloat (PrimFloat.sub x y)).
Proof.
  intros Hxs Hlegs HT Hij.
  destruct (@table_spread_column T i j) as (s & Hget & Hsub);
    [intros k Hk; apply (Hlegs k Hk) | exact HT | exact Hij |].
  pose proof (@joined_aligned i ltac:(lia) Hlegs) as Hai.
  pose proof (@joined_aligned j ltac:(lia) Hlegs) as Haj.
  exists s. split; [exact Hget|]. split.
  - apply (sub_col_len _ _ Hsub); [apply Hai | apply Haj].
  - intros p d Hp.
    rewrite (Hxs i ltac:(lia)) in Hai at 1.
    rewrite (Hxs j ltac:(lia)) in Haj at 1.
    destruct (@aligned_float _ _ _ _ p d Hai Hp) as (qi & x & Hqi & Hx & Hci).
    destruct (@aligned_float _ _ _ _ p d Haj Hp) as (qj & y & Hqj & Hy & Hcj).
    exists qi, qj, x, y. repeat (split; [assumption|]).
    exact (@sub_col_float_row _ _ _ p _ _ Hsub Hci Hcj).
Qed.

(** X4: for unique dates and numeric closes, legs without any common
    date give a table with the eleven columns and no row, not an error. *)
Theorem no_common_date_empty_table :
  (forall k, k < 4 -> leg_unique fs ft k (ds k) (cs k)) ->
  (forall k, k < 4 -> is_numeric (cs k) = true) ->
  common = [] ->
  exists T,
    process_futures_data fs parse_datetime ft = Ok T /\
    columns T = "trade_date" :: close_names ft ++ spread_names ft /\
    Forall (fun nc => col_len (snd nc) = 0) T.
Proof.
  intros Hlegs Hnum Hempty.
  destruct (Hlegs 0 ltac:(lia)) as (L0 & _ & _), (Hlegs 1 ltac:(lia))
    as (L1 & _ & N1), (Hlegs 2 ltac:(lia)) as (L2 & _ & N2),
    (Hlegs 3 ltac:(lia)) as (L3 & _ & N3).
  pose proof (keys3_intersection (ds 0) N1 N2 N3) as Hk.
  rewrite Hempty in Hk.
  assert (Hlen : forall i, col_len (joined i) = 0)
    by (intros i; rewrite joined_close_len; now rewrite Hk).
  rewrite (process_futures_data_eq parse_datetime L0 L1 L2 L3), Hk.
  destruct (@sub_col_numeric (joined 0) (joined 1)) as [s01 H01];
    [rewrite is_numeric_joined; apply Hnum; lia..|].
  destruct (@sub_col_numeric (joined 0) (joined 2)) as [s02 H02];
    [rewrite is_numeric_joined; apply Hnum; lia..|].
  destruct (@sub_col_numeric (joined 0) (joined 3)) as [s03 H03];
    [rewrite is_numeric_joined; apply Hnum; lia..|].
  destruct (@sub_col_numeric (joined 1) (joined 2)) as [s12 H12];
    [rewrite is_numeric_joined; apply Hnum; lia..|].
  destruct (@sub_col_numeric (joined 1) (joined 3)) as [s13 H13];
    [rewrite is_numeric_joined; apply Hnum; lia..|].
  destruct (@sub_col_numeric (joined 2) (joined 3)) as [s23 H23];
    [rewrite is_numeric_joined; apply Hnum; lia..|].
  rewrite H01, H02, H03, H12, H13, H23. cbn [bind].
  unfold to_datetime. cbn [cells map map_opt bind].
  eexists. split; [reflexivity|]. split; [reflexivity|].
  unfold spread_frame.
  repeat (apply Forall_cons; cbn [snd];
          [first [ reflexivity | apply Hlen
                 | eapply sub_col_len; [eassumption | apply Hlen..] ]|]).
  constructor.
Qed.

End Sources.

Definition example_fs_of (dates : nat -> list Z) (closes : nat -> list float)
  (path : string) : option DataFrame :=
  if String.eqb path "IF00.csv" then Some (leg_frame (dates 0) (closes 0))
  else if String.eqb path "IF01.csv" then Some (leg_frame (dates 1) (closes 1))
  else if String.eqb path "IF02.csv" then Some (leg_frame (dates 2) (closes 2))
  else if String.eqb path "IF03.csv" then Some (leg_frame (dates 3) (closes 3))
  else None.

(** Calendars without a date common to the four legs. *)
Definition disjoint_dates (i : nat) : list Z :=
  match i with
  | 3 => [20230110; 20230111; 20230112]%Z
  | _ => example_dates i
  end.

Lemma example_of_leg_unique dates closes i :
  i < 4 ->
  List.length (closes i) = List.length (dates i) ->
  nodup_Zb (dates i) = true ->
  leg_unique (example_fs_of dates closes) "if" i (dates i)
             (FloatCol (closes i)).
Proof.
  intros Hi Hlen Hnd. split; [|split].
  - leg_cases i; eexists; repeat split; reflexivity.
  - unfold col_len. cbn [cells]. now rewrite length_map.
  - now apply nodup_Zb_NoDup.
Qed.

Lemma spread_from_sources_witness :
  exists s,
    get_col (spread_name "if" 0 1) example_table = Ok s /\
    col_len s = 3 /\
    forall p d,
      nth_error [20230104; 20230105; 20230106]%Z p = Some d ->
      exists qi qj x y,
        nth_error (example_dates 0) qi = Some d /\
        nth_error (example_closes 0) qi = Some x /\
        nth_error (example_dates 1) qj = Some d /\
        nth_error (example_closes 1) qj = Some y /\
        col_nth s p = Some (VFloat (PrimFloat.sub x y)).
Proof.
  apply (@spread_from_sources example_fs simple_parse_datetime "if"
           example_dates (fun i => FloatCol (example_closes i))
           example_closes example_table 0 1).
  - reflexivity.
  - intros k Hk. now apply example_leg_unique.
  - exact example_table_returned.
  - lia.
Defined.

Lemma no_common_date_empty_table_witness :
  exists T,
    process_futures_data (example_fs_of disjoint_dates example_closes)
      simple_parse_datetime "if" = Ok T /\
    columns T = "trade_date" :: close_names "if" ++ spread_names "if" /\
    Forall (fun nc => col_len (snd nc) = 0) T.
Proof.
  apply (@no_common_date_empty_table
           (example_fs_of disjoint_dates example_closes)
           simple_parse_datetime "if" disjoint_dates
           (fun i => FloatCol (example_closes i))).
  - intros k Hk. apply example_of_leg_unique; [exact Hk | |];
      leg_cases k; reflexivity.
  - reflexivity.
  - reflexivity.
Defined.

(** ** Building a dictionary in a loop *)

Section FoldDict.
Context {V : Type}.
Variable f : string -> result V.
Variable key : string -> string.

(** One iteration of "try: d[key(x)] = f(x)  except: pass". *)
Definition upd (acc : dict V) (x : string) : dict V :=
  match f x with
  | Ok v => dict_set (key x) v acc
  | Raise _ => acc
  end.

Definition hits (xs : list string) : dict V :=
  flat_map (fun x => match f x with
                     | Ok v => [(key x, v)]
                     | Raise _ => []
                     end) xs.

Lemma dict_set_fresh k v (d : dict V) :
  ~ In k (keys d) -> dict_set k v d = d ++ [(k, v)].
Proof.
  unfold keys. induction d as [|[k0 v0] d IH]; simpl; intros Hn.
  - reflexivity.
  - destruct (String.eqb_spec k0 k) as [->|Hne]; [tauto|].
    rewrite IH by tauto. reflexivity.
Qed.

Lemma keys_hits_subset xs k : In k (keys (hits xs)) -> In k (map key xs).
Proof.
  unfold keys, hits. induction xs as [|x xs IH]; simpl; [auto|].
  rewrite map_app, in_app_iff. intros [H|H]; [|right; now apply IH].
  destruct (f x); simpl in H; [|destruct H].
  destruct H as [<-|[]]. now left.
Qed.

(** With pairwise different keys the loop appends the successes in
    order. *)
Lemma fold_upd_distinct xs acc :
  NoDup (map key xs) ->
  (forall x, In x xs -> ~ In (key x) (keys acc)) ->
  fold_left upd xs acc = acc ++ hits xs.
Proof.
  revert acc. induction xs as [|x xs IH]; intros acc Hnd Hacc; simpl.
  - now rewrite app_nil_r.
  - inversion Hnd as [|? ? Hx Hnd']; subst.
    unfold upd at 2, hits. cbn [flat_map]. fold (hits xs).
    destruct (f x) as [v|e].
    + rewrite IH; [|exact Hnd'|].
      * rewrite dict_set_fresh by (apply Hacc; now left).
        now rewrite <- app_assoc.
      * intros y Hy Hin. apply keys_dict_set_in in Hin as [Hk|Hin].
        -- apply Hx. rewrite <- Hk. now apply in_map.
        -- apply (Hacc y); [now right | exact Hin].
    + apply IH; [exact Hnd'|]. intros y Hy. apply Hacc. now right.
Qed.

Lemma dict_get_hits xs x :
  NoDup (map key xs) -> In x xs ->
  dict_get (key x) (hits xs)
  = match f x with Ok v => Some v | Raise _ => None end.
Proof.
  unfold hits. induction xs as [|y xs IH]; simpl; intros Hnd Hin;
    [destruct Hin|].
  inversion Hnd as [|? ? Hy Hnd']; subst.
  destruct Hin as [->|Hin].
  - destruct (f x) as [v|e]; simpl.
    + now rewrite String.eqb_refl.
    + apply dict_get_none_notin. intros Hk. apply Hy.
      now apply keys_hits_subset.
  - assert (Hne : key y <> key x)
      by (intros Heq; apply Hy; rewrite Heq; now apply in_map).
    destruct (f y) as [v|e]; simpl; [|now apply IH].
    apply String.eqb_neq in Hne. rewrite Hne. now apply IH.
Qed.

Lemma dict_get_hits_other xs k :
  ~ In k (map key xs) -> dict_get k (hits xs) = None.
Proof.
  intros Hn. apply dict_get_none_notin. intros Hk. apply Hn.
  now apply keys_hits_subset.
Qed.

End FoldDict.

(** ** [process_all_futures] and the files it writes *)

Definition is_ok {A} (r : result A) : bool :=
  match r with
  | Ok _ => true
  | Raise _ => false
  end.

(** The file system after [path] has been (over)written. *)
Definition write_file (fs : string -> option DataFrame) (path : string)
  (df : DataFrame) : string -> option DataFrame :=
  fun p => if String.eqb p path then Some df else fs p.

Definition spread_file (ft : string) : string := (ft ++ "_spread.csv")%string.

Definition builder_types : list string := ["if"; "ih"; "ic"; "im"].

Section ProcessAll.
Variable parse_datetime : option string -> cell -> option datetime.
(** The frame [pd.read_csv] gives back for the file that
    [df.to_csv(path, index=False)] writes. *)
Variable csv_reread : DataFrame -> DataFrame.

Definition world : Type := ((string -> option DataFrame) * dict DataFrame)%type.

(** Lines 49-59: the body of the loop, on the file system and [results].
    [df.describe()] is only printed, and the write of [to_csv] is taken to
    succeed. *)
Definition process_one (st : world) (ft : string) : result world :=
  try_except
    (df <- process_futures_data (fst st) parse_datetime ft ;;
     let results := dict_set ft df (snd st) in
     let fs' := write_file (fst st) (spread_file ft) (csv_reread df) in
     Ok (fs', results))
    (fun e => Ok st).

(** [process_all_futures()]: the file system it leaves and the mapping it
    returns. *)
Definition process_all_futures (fs : string -> option DataFrame)
  : result world :=
  let futures_types := builder_types in
  for_each futures_types process_one (fs, []).

(** [load_futures_data] of [visualize_spreads.py]. *)
Definition load_futures_data (fs : string -> option DataFrame)
  (futures_type : string) : result (option DataFrame) :=
  let file_path := spread_file (lower futures_type) in
  match fs file_path with
  | None => Ok None
  | Some _ =>
      df <- read_csv fs file_path ;;
      c <- get_col "trade_date" df ;;
      d <- to_datetime parse_datetime None c ;;
      Ok (Some (set_col "trade_date" d df))
  end.

Variable fs : string -> option DataFrame.

Local Abbreviation built := (process_futures_data fs parse_datetime).

(** The builder only reads the four leg files of the family. *)
Lemma process_futures_data_ext fs1 fs2 ft :
  (forall i, i < 4 -> fs1 (leg_path ft i) = fs2 (leg_path ft i)) ->
  process_futures_data fs1 parse_datetime ft
  = process_futures_data fs2 parse_datetime ft.
Proof.
  intros H. unfold process_futures_data, read_csv.
  change (upper ft ++ "00.csv")%string with (leg_path ft 0).
  change (upper ft ++ "01.csv")%string with (leg_path ft 1).
  change (upper ft ++ "02.csv")%string with (leg_path ft 2).
  change (upper ft ++ "03.csv")%string with (leg_path ft 3).
  now rewrite !H by lia.
Qed.

Lemma leg_path_not_spread_file ft ft' i :
  In ft builder_types -> In ft' builder_types -> i < 4 ->
  String.eqb (leg_path ft i) (spread_file ft') = false.
Proof.
  unfold builder_types. simpl. intros H H' Hi.
  repeat (destruct H as [<-|H]; [|]); try contradiction;
    repeat (destruct H' as [<-|H']; [|]); try contradiction;
    leg_cases i; reflexivity.
Qed.

Definition agree_on_legs (fs1 fs2 : string -> option DataFrame) : Prop :=
  forall ft i, In ft builder_types -> i < 4 ->
               fs1 (leg_path ft i) = fs2 (leg_path ft i).

Definition write_step (f : string -> option DataFrame) (ft : string)
  : string -> option DataFrame :=
  match built ft with
  | Ok T => write_file f (spread_file ft) (csv_reread T)
  | Raise _ => f
  end.

Lemma write_step_agree f ft :
  In ft builder_types -> agree_on_legs f fs ->
  agree_on_legs (write_step f ft) fs.
Proof.
  intros Hin Hag ft' i Hft' Hi. unfold write_step.
  destruct (built ft); [|now apply Hag].
  unfold write_file. rewrite leg_path_not_spread_file by assumption.
  now apply Hag.
Qed.

Lemma builder_loop fts f acc :
  incl fts builder_types -> agree_on_legs f fs ->
  for_each fts process_one (f, acc)
  = Ok (fold_left write_step fts f,
        fold_left (upd built (fun x => x)) fts acc).
Proof.
  revert f acc. induction fts as [|ft fts IH]; intros f acc Hincl Hag;
    simpl; [reflexivity|].
  assert (Hin : In ft builder_types) by (apply Hincl; now left).
  assert (Hb : process_futures_data f parse_datetime ft = built ft)
    by (apply process_futures_data_ext; intros i Hi; now apply Hag).
  unfold process_one at 1. cbn [fst snd]. rewrite Hb.
  unfold write_step at 2, upd at 2.
  destruct (built ft) as [T|e] eqn:E; cbn [bind try_except].
  - apply IH.
    + intros x Hx. apply Hincl. now right.
    + pose proof (write_step_agree (f := f) Hin Hag) as H.
      unfold write_step in H. now rewrite E in H.
  - apply IH; [|exact Hag]. intros x Hx. apply Hincl. now right.
Qed.

Lemma fold_write_other fts f p :
  ~ In p (map spread_file fts) -> fold_left write_step fts f p = f p.
Proof.
  revert f. induction fts as [|ft fts IH]; intros f Hn; simpl; [reflexivity|].
  rewrite IH by (intros H; apply Hn; now right).
  unfold write_step. destruct (built ft); [|reflexivity].
  unfold write_file.
  destruct (String.eqb_spec p (spread_file ft)) as [->|]; [|reflexivity].
  exfalso. apply Hn. now left.
Qed.

Lemma fold_write_at fts f ft :
  NoDup (map spread_file fts) -> In ft fts ->
  fold_left write_step fts f (spread_file ft)
  = match built ft with
    | Ok T => Some (csv_reread T)
    | Raise _ => f (spread_file ft)
    end.
Proof.
  revert f. induction fts as [|x fts IH]; intros f Hnd Hin; simpl;
    [destruct Hin|].
  inversion Hnd as [|? ? Hx Hnd']; subst.
  destruct Hin as [->|Hin].
  - rewrite fold_write_other by exact Hx.
    unfold write_step. destruct (built ft); [|reflexivity].
    unfold write_file. now rewrite String.eqb_refl.
  - rewrite (IH _ Hnd' Hin). destruct (built ft); [reflexivity|].
    unfold write_step. destruct (built x); [|reflexivity].
    unfold write_file.
    destruct (String.eqb_spec (spread_file ft) (spread_file x)) as [Heq|];
      [|reflexivity].
    exfalso. apply Hx. rewrite <- Heq. now apply in_map.
Qed.

Lemma keys_hits_filter {V} (f : string -> result V) xs :
  keys (hits f (fun x => x) xs) = filter (fun x => is_ok (f x)) xs.
Proof.
  unfold keys, hits. induction xs as [|x xs IH]; simpl; [reflexivity|].
  rewrite map_app, IH. now destruct (f x).
Qed.

Lemma process_all_futures_total :
  process_all_futures fs
  = Ok (fold_left write_step builder_types fs,
        hits built (fun x => x) builder_types).
Proof.
  unfold process_all_futures.
  rewrite builder_loop; [|apply incl_refl | intros ft i _ _; reflexivity].
  rewrite fold_upd_distinct.
  - reflexivity.
  - apply nodupb_NoDup. reflexivity.
  - intros x _ [].
Qed.

(** X5: [process_all_futures] never raises; the mapping it returns lists,
    in the order if, ih, ic, im, exactly the families whose tables can be
    built from the files present before the call, each with that table:
    the files written for earlier families do not influence later ones,
    and a failing family is left out. *)
Theorem process_all_futures_results :
  exists fs' results,
    process_all_futures fs = Ok (fs', results) /\
    keys results = filter (fun ft => is_ok (built ft)) builder_types /\
    (forall ft T, dict_get ft results = Some T <->
                  In ft builder_types /\ built ft = Ok T).
Proof.
  rewrite process_all_futures_total. eexists _, _.
  split; [reflexivity|]. split; [apply keys_hits_filter|].
  intros ft T.
  assert (Hnd : NoDup (map (fun x : string => x) builder_types))
    by (apply nodupb_NoDup; reflexivity).
  destruct (in_dec string_dec ft builder_types) as [Hin|Hnot].
  - rewrite (@dict_get_hits _ built (fun x => x) builder_types ft Hnd Hin).
    destruct (built ft) as [T'|e]; split.
    + intros [= ->]. auto.
    + intros [_ [= ->]]. reflexivity.
    + discriminate.
    + intros [_ H]. discriminate H.
  - rewrite (@dict_get_hits_other _ built (fun x => x) builder_types ft)
      by (now rewrite map_id).
    split; [discriminate | tauto].
Qed.

(** X6: after [process_all_futures], the file [<ft>_spread.csv] of every
    family whose table was built holds that table; for a family that
    failed the file, if any, is as before; and every other path, the leg
    files included, is untouched. *)
Theorem process_all_futures_files :
  exists fs' results,
    process_all_futures fs = Ok (fs', results) /\
    (forall ft T, In ft builder_types -> built ft = Ok T ->
                  fs' (spread_file ft) = Some (csv_reread T)) /\
    (forall ft e, In ft builder_types -> built ft = Raise e ->
                  fs' (spread_file ft) = fs (spread_file ft)) /\
    (forall p, ~ In p (map spread_file builder_types) -> fs' p = fs p) /\
    (forall ft i, In ft builder_types -> i < 4 ->
                  fs' (leg_path ft i) = fs (leg_path ft i)).
Proof.
  rewrite process_all_futures_total. eexists _, _.
  split; [reflexivity|].
  assert (Hnd : NoDup (map spread_file builder_types))
    by (apply nodupb_NoDup; reflexivity).
  split; [|split; [|split]].
  - intros ft T Hin HT. rewrite (@fold_write_at _ fs ft Hnd Hin).
    now rewrite HT.
  - intros ft e Hin HT. rewrite (@fold_write_at _ fs ft Hnd Hin).
    now rewrite HT.
  - intros p Hp. now apply fold_write_other.
  - intros ft i Hin Hi. apply fold_write_other. intros H.
    apply in_map_iff in H as (ft' & Heq & Hft').
    pose proof (leg_path_not_spread_file Hin Hft' Hi) as Hne.
    rewrite Heq, String.eqb_refl in Hne. discriminate Hne.
Qed.

End ProcessAll.

(** ** The builder's output and the two loaders *)

Lemma columns_set_col_present name c c' df :
  get_col name df = Ok c' -> columns (set_col name c df) = columns df.
Proof.
  unfold columns. induction df as [|[n x] df IH]; simpl; [discriminate|].
  destruct (String.eqb_spec n name) as [->|Hne]; simpl; [reflexivity|].
  intros H. now rewrite IH.
Qed.





(** X8: the visualizer's loader does find it: for a family whose table was
    built, [load_futures_data] after the builder's run does not report a
    missing file, and the frame it returns has the columns of the table, so
    the six spread columns are there to plot (given that re-reading a CSV
    keeps the header). *)
Theorem visualizer_reads_builder_output
  parse_datetime csv_reread fs fs' results ft T :
  (forall df, columns (csv_reread df) = columns df) ->
  process_all_futures parse_datetime csv_reread fs = Ok (fs', results) ->
  In ft builder_types ->
  process_futures_data fs parse_datetime ft = Ok T ->
  load_futures_data parse_datetime fs' ft <> Ok None /\
  forall df, load_futures_data parse_datetime fs' ft = Ok (Some df) ->
             columns df = columns T /\ spread_cols df = spread_cols T.
Proof.
  intros Hcols Hrun Hin HT.
  assert (Hfs : fs' = fold_left (write_step parse_datetime csv_reread fs)
                                builder_types fs).
  { pose proof (process_all_futures_total parse_datetime csv_reread fs)
      as Htot.
    rewrite Hrun in Htot. congruence. }
  pose proof (@fold_write_at parse_datetime csv_reread fs builder_types fs ft
                (@nodupb_NoDup (map spread_file builder_types) eq_refl)
                Hin) as Hw.
  rewrite HT, <- Hfs in Hw. clear Hfs.
  assert (Hlow : lower ft = ft).
  { unfold builder_types in Hin. simpl in Hin.
    repeat (destruct Hin as [<-|Hin]; [reflexivity|]). destruct Hin. }
  unfold load_futures_data, read_csv. rewrite Hlow, Hw. cbn [bind].
  destruct (get_col "trade_date" (csv_reread T)) as [c|e] eqn:Hc;
    cbn [bind]; [|split; [discriminate | intros df H; discriminate H]].
  destruct (to_datetime parse_datetime None c) as [d|e];
    cbn [bind]; [|split; [discriminate | intros df H; discriminate H]].
  split; [discriminate|]. intros df [= <-].
  assert (Hx : columns (set_col "trade_date" d (csv_reread T)) = columns T)
    by (rewrite (@columns_set_col_present "trade_date" d c _ Hc);
        apply Hcols).
  split; [exact Hx|]. unfold spread_cols. now rewrite Hx.
Qed.

(** X9: the two loaders treat a file alike but a missing file differently:
    when the visualizer's path and the analyzer's path hold the same
    content, a present file gives the same frame (or the same exception)
    from both, while for an absent file [load_futures_data] returns [None]
    and [load_data] raises [FileNotFoundError]. *)
Theorem loaders_compared parse_datetime fs ft :
  fs (spread_file (lower ft)) = fs (spread_path ft) ->
  match fs (spread_path ft) with
  | Some _ =>
      load_futures_data parse_datetime fs ft
      = (df <- load_data fs parse_datetime ft ;; Ok (Some df))
  | None =>
      load_futures_data parse_datetime fs ft = Ok None /\
      exists msg, load_data fs parse_datetime ft
                  = Raise (FileNotFoundError msg)
  end.
Proof.
  intros H. unfold load_futures_data, load_data, read_csv. rewrite H.
  destruct (fs (spread_path ft)) as [raw|].
  - cbn [bind]. destruct (get_col "trade_date" raw) as [c|e]; cbn [bind];
      [|reflexivity].
    destruct (to_datetime parse_datetime None c); reflexivity.
  - split; [reflexivity|]. eexists. reflexivity.
Qed.

(** A model of writing a frame to CSV and reading it back, used in the
    examples: dates come back as ISO strings, and a frame without rows
    comes back with untyped (string) columns. *)
Definition pad2 (n : Z) : string :=
  String (digit_char ((n / 10) mod 10))
         (String (digit_char (n mod 10)) EmptyString).

Definition iso_date (d : datetime) : string :=
  (String (digit_char ((year d / 1000) mod 10))
          (String (digit_char ((year d / 100) mod 10)) (pad2 (year d)))
   ++ "-" ++ pad2 (month d) ++ "-" ++ pad2 (day d))%string.

Definition example_csv_reread (df : DataFrame) : DataFrame :=
  map (fun nc =>
         (fst nc,
          match snd nc with
          | DateCol l => StrCol (map iso_date l)
          | IntCol [] | FloatCol [] => StrCol []
          | c => c
          end)) df.

Lemma example_csv_reread_columns df :
  columns (example_csv_reread df) = columns df.
Proof.
  unfold columns, example_csv_reread. rewrite map_map. reflexivity.
Qed.

(** The example directory after the builder has run. *)
Definition example_world : world :=
  Eval vm_compute in
    match process_all_futures simple_parse_datetime example_csv_reread
            example_fs with
    | Ok w => (fold_left (write_step simple_parse_datetime example_csv_reread
                                     example_fs) builder_types example_fs,
               snd w)
    | Raise _ => (example_fs, [])
    end.

Lemma example_world_reached :
  process_all_futures simple_parse_datetime example_csv_reread example_fs
  = Ok example_world.
Proof.
  rewrite process_all_futures_total. vm_compute. reflexivity.
Qed.


Lemma visualizer_reads_builder_output_witness :
  load_futures_data simple_parse_datetime (fst example_world) "if" <> Ok None /\
  forall df,
    load_futures_data simple_parse_datetime (fst example_world) "if"
    = Ok (Some df) ->
    columns df = columns example_table /\
    spread_cols df = spread_cols example_table.
Proof.
  exact (@visualizer_reads_builder_output simple_parse_datetime
           example_csv_reread example_fs (fst example_world)
           (snd example_world) "if" example_table
           example_csv_reread_columns example_world_reached
           (or_introl eq_refl) example_table_returned).
Defined.

Lemma loaders_compared_witness :
  load_futures_data simple_parse_datetime example_data_fs "ic" = Ok None /\
  exists msg, load_data example_data_fs simple_parse_datetime "ic"
              = Raise (FileNotFoundError msg).
Proof.
  exact (@loaders_compared simple_parse_datetime example_data_fs "ic" eq_refl).
Defined.

(** ** [load_data] *)

Lemma get_col_set_col_same name c df : get_col name (set_col name c df) = Ok c.
Proof.
  induction df as [|[n x] df IH]; simpl.
  - now rewrite String.eqb_refl.
  - destruct (String.eqb n name) eqn:E; simpl.
    + now rewrite String.eqb_refl.
    + now rewrite E.
Qed.

Lemma get_col_set_col_other name c df m :
  m <> name -> get_col m (set_col name c df) = get_col m df.
Proof.
  intros Hne. induction df as [|[n x] df IH]; simpl.
  - apply not_eq_sym in Hne. apply String.eqb_neq in Hne. now rewrite Hne.
  - destruct (String.eqb_spec n name) as [->|Hn]; simpl.
    + apply not_eq_sym in Hne. apply String.eqb_neq in Hne. now rewrite Hne.
    + now rewrite IH.
Qed.




(** X11: when [load_data] returns, the frame is the file's frame with the
    [trade_date] column replaced by its parsed dates: same column names in
    the same order, as many dates as the file has rows, and every other
    column untouched. *)
Theorem load_data_success fs parse_datetime ft df :
  load_data fs parse_datetime ft = Ok df ->
  exists raw c dc,
    fs (spread_path ft) = Some raw /\
    get_col "trade_date" raw = Ok c /\
    map_opt (parse_datetime None) (cells c) = Some dc /\
    get_col "trade_date" df = Ok (DateCol dc) /\
    List.length dc = col_len c /\
    columns df = columns raw /\
    forall name, name <> "trade_date" -> get_col name df = get_col name raw.
Proof.
  unfold load_data, read_csv.
  destruct (fs (spread_path ft)) as [raw|]; [|discriminate].
  cbn [bind].
  destruct (get_col "trade_date" raw) as [c|] eqn:Hc; cbn [bind];
    [|discriminate].
  unfold to_datetime.
  destruct (map_opt (parse_datetime None) (cells c)) as [dc|] eqn:Hdc;
    cbn [bind]; [|discriminate].
  intros [= <-]. exists raw, c, dc.
  split; [reflexivity|]. split; [exact Hc|]. split; [exact Hdc|].
  split; [apply get_col_set_col_same|].
  split; [apply (map_opt_length _ _ Hdc)|].
  split; [apply (@columns_set_col_present "trade_date" _ c _ Hc)|].
  intros name Hne. now apply get_col_set_col_other.
Qed.

(** The spread table of family [if] as [load_data] returns it. *)
Definition example_spread_loaded : DataFrame :=
  Eval vm_compute in
    match load_data example_data_fs simple_parse_datetime "if" with
    | Ok df => df
    | Raise _ => []
    end.

Lemma load_data_success_witness :
  exists raw c dc,
    example_data_fs (spread_path "if") = Some raw /\
    get_col "trade_date" raw = Ok c /\
    map_opt (simple_parse_datetime None) (cells c) = Some dc /\
    get_col "trade_date" example_spread_loaded = Ok (DateCol dc) /\
    List.length dc = col_len c /\
    columns example_spread_loaded = columns raw /\
    forall name, name <> "trade_date" ->
                 get_col name example_spread_loaded = get_col name raw.
Proof.
  exact (@load_data_success example_data_fs simple_parse_datetime "if"
           example_spread_loaded eq_refl).
Defined.

(** ** [perform_adf_test] and missing values *)

Lemma leb_nan_l x y : is_nan x = true -> PrimFloat.leb x y = false.
Proof.
  unfold is_nan. rewrite negb_true_iff, FloatAxioms.eqb_spec,
    FloatAxioms.leb_spec.
  unfold SFeqb, SFleb.
  destruct (Prim2SF x) as [s|s| |s m e]; simpl.
  - destruct s; discriminate.
  - destruct s; discriminate.
  - reflexivity.
  - destruct s; rewrite Z.compare_refl, ?Pos.compare_refl;
      try rewrite Pos.compare_cont_refl; simpl; try discriminate.
Qed.

Lemma dropna_float_clean xs :
  Forall (fun v => is_nan v = false)
         (filter (fun x => negb (is_nan x)) xs).
Proof.
  apply Forall_forall. intros v Hin. apply filter_In in Hin as [_ H].
  now apply negb_true_iff in H.
Qed.

Lemma filter_all_true {A} (f : A -> bool) l :
  Forall (fun x => f x = true) l -> filter f l = l.
Proof.
  induction 1 as [|x l Hx _ IH]; simpl; [reflexivity|].
  now rewrite Hx, IH.
Qed.

(** X12: missing values never reach the test and never change it: the
    series handed to [adfuller] contains no NaN, testing a float series
    gives the same outcome as testing it with its NaN entries removed, and
    inserting a NaN observation anywhere leaves the outcome unchanged. *)
Theorem perform_adf_test_ignores_nan adfuller xs ys x name :
  is_nan x = true ->
  perform_adf_test adfuller (FloatCol (xs ++ x :: ys)) name
  = perform_adf_test adfuller (FloatCol (xs ++ ys)) name /\
  exists clean,
    dropna (FloatCol (xs ++ x :: ys)) = FloatCol clean /\
    Forall (fun v => is_nan v = false) clean /\
    perform_adf_test adfuller (FloatCol (xs ++ x :: ys)) name
    = perform_adf_test adfuller (FloatCol clean) name.
Proof.
  intros Hx.
  assert (Hd : dropna (FloatCol (xs ++ x :: ys)) = dropna (FloatCol (xs ++ ys))).
  { cbn [dropna]. rewrite !filter_app. cbn [filter]. now rewrite Hx. }
  split; [unfold perform_adf_test; now rewrite Hd|].
  exists (filter (fun v => negb (is_nan v)) (xs ++ x :: ys)).
  split; [reflexivity|]. split; [apply dropna_float_clean|].
  unfold perform_adf_test. cbn [dropna].
  rewrite (filter_all_true (fun v => negb (is_nan v))
             (l := filter (fun v => negb (is_nan v)) (xs ++ x :: ys)));
    [reflexivity|].
  apply Forall_forall. intros v Hin. now apply filter_In in Hin as [_ H].
Qed.

Lemma perform_adf_test_ignores_nan_witness :
  perform_adf_test toy_adfuller (FloatCol ([-4.6; -5.2] ++ nan :: [-5.3])%float)
                   "if0-if1"
  = perform_adf_test toy_adfuller (FloatCol ([-4.6; -5.2] ++ [-5.3])%float)
                     "if0-if1".
Proof.
  exact (proj1 (@perform_adf_test_ignores_nan toy_adfuller
                  [-4.6; -5.2]%float [-5.3]%float nan "if0-if1" eq_refl)).
Defined.

(** X13: a result whose p-value is NaN is never declared stationary. *)
Theorem nan_p_value_not_stationary adfuller series name r :
  perform_adf_test adfuller series name = Ok r ->
  is_nan (p_value r) = true ->
  is_stationary r = false.
Proof.
  unfold perform_adf_test.
  destruct (adfuller (dropna series)) as [out|]; cbn [bind]; [|discriminate].
  intros [= <-]. simpl. apply leb_nan_l.
Qed.

Lemma nan_p_value_not_stationary_witness :
  exists r,
    perform_adf_test naive_adfuller (FloatCol [2.5; 2.5; 2.5]%float) "ih0-ih2"
    = Ok r /\ is_stationary r = false.
Proof.
  eexists. split; [reflexivity|].
  exact (@nan_p_value_not_stationary naive_adfuller
           (FloatCol [2.5; 2.5; 2.5]%float) "ih0-ih2" _ eq_refl eq_refl).
Defined.

(** ** [analyze_spread_combinations] *)

Definition is_spread (col : string) : bool := startswith col "price_spread".

(** The spread columns of a frame, with their data. *)
Definition spread_part (df : DataFrame) : DataFrame :=
  filter (fun nc => is_spread (fst nc)) df.

Lemma spread_cols_spread_part df : spread_cols (spread_part df) = spread_cols df.
Proof.
  unfold spread_cols, spread_part, columns.
  induction df as [|[n c] df IH]; simpl; [reflexivity|].
  fold (is_spread n). destruct (is_spread n) eqn:E; simpl.
  - fold (is_spread n). now rewrite E, IH.
  - exact IH.
Qed.

Lemma spread_cols_eq df : spread_cols df = columns (spread_part df).
Proof.
  unfold spread_cols, spread_part, columns.
  induction df as [|[n c] df IH]; simpl; [reflexivity|].
  fold (is_spread n). destruct (is_spread n); simpl; now rewrite IH.
Qed.

Lemma get_col_spread_part col df :
  is_spread col = true -> get_col col (spread_part df) = get_col col df.
Proof.
  intros Hc. unfold spread_part.
  induction df as [|[n c] df IH]; simpl; [reflexivity|].
  destruct (is_spread n) eqn:E; simpl.
  - now rewrite IH.
  - destruct (String.eqb_spec n col) as [->|_]; [congruence | exact IH].
Qed.

Lemma for_each_ext_in {A S} (f g : S -> A -> result S) xs s :
  (forall s' x, In x xs -> f s' x = g s' x) ->
  for_each xs f s = for_each xs g s.
Proof.
  revert s. induction xs as [|x xs IH]; intros s H; simpl; [reflexivity|].
  rewrite (H s x) by now left.
  destruct (g s x); simpl; [|reflexivity].
  apply IH. intros s' y Hy. apply H. now right.
Qed.

Lemma column_loop_spread_part adfuller df acc :
  for_each (spread_cols df) (test_column adfuller df) acc
  = for_each (spread_cols (spread_part df))
             (test_column adfuller (spread_part df)) acc.
Proof.
  rewrite spread_cols_spread_part. apply for_each_ext_in.
  intros s col Hin. unfold test_column.
  apply filter_In in Hin as [_ Hs].
  now rewrite (@get_col_spread_part col df Hs).
Qed.

(** X14: the analysis of a family looks at the spread columns only: two
    loaded spread tables with the same [price_spread] columns (names, order
    and data) give the same analysis, whatever their dates and close
    columns are. *)
Theorem analysis_depends_on_spread_columns
  fs1 fs2 parse_datetime adfuller ft1 ft2 df1 df2 :
  load_data fs1 parse_datetime ft1 = Ok df1 ->
  load_data fs2 parse_datetime ft2 = Ok df2 ->
  spread_part df1 = spread_part df2 ->
  analyze_spread_combinations fs1 parse_datetime adfuller ft1
  = analyze_spread_combinations fs2 parse_datetime adfuller ft2.
Proof.
  intros H1 H2 Heq. unfold analyze_spread_combinations.
  rewrite H1, H2. cbn [bind].
  rewrite (column_loop_spread_part adfuller df1),
    (column_loop_spread_part adfuller df2).
  now rewrite Heq.
Qed.

Definition example_spreads_only_fs (path : string) : option DataFrame :=
  if String.eqb path "data/if_spread.csv" then
    Some (("trade_date", StrCol ["2024-02-01"; "2024-02-02"; "2024-02-05"])
            :: spread_part example_spread_frame)
  else None.

Lemma analysis_depends_on_spread_columns_witness :
  analyze_spread_combinations example_data_fs simple_parse_datetime
    toy_adfuller "if"
  = analyze_spread_combinations example_spreads_only_fs simple_parse_datetime
      toy_adfuller "IF".
Proof.
  eapply analysis_depends_on_spread_columns;
    [vm_compute; reflexivity | vm_compute; reflexivity | reflexivity].
Defined.

(** *** Labels never fail on a selected column *)

Lemma prefix_cons a p s :
  String.prefix (String a p) s = true ->
  exists s', s = String a s' /\ String.prefix p s' = true.
Proof.
  destruct s as [|b s']; simpl; [discriminate|].
  destruct (ascii_dec a b) as [->|]; [|discriminate].
  intros H. now exists s'.
Qed.

Lemma split_nonempty sep s : split sep s <> [].
Proof.
  destruct s as [|c t]; simpl; [discriminate|].
  destruct (Ascii.eqb c sep); [discriminate|].
  destruct (split sep t); discriminate.
Qed.

Lemma last_n_2 {A} (l : list A) :
  2 <= List.length l -> exists a b, last_n 2 l = [a; b].
Proof.
  intros H. unfold last_n.
  pose proof (length_skipn (List.length l - 2) l) as Hlen.
  destruct (skipn (List.length l - 2) l) as [|a [|b [|c t]]];
    simpl in Hlen; try lia.
  now exists a, b.
Qed.

Lemma pair_label_total col :
  is_spread col = true -> exists label, pair_label col = Ok label.
Proof.
  unfold is_spread, startswith. intros H.
  apply prefix_cons in H as (s1 & -> & H).
  apply prefix_cons in H as (s2 & -> & H).
  apply prefix_cons in H as (s3 & -> & H).
  apply prefix_cons in H as (s4 & -> & H).
  apply prefix_cons in H as (s5 & -> & H).
  apply prefix_cons in H as (s6 & -> & _).
  change (String "p" (String "r" (String "i" (String "c" (String "e"
            (String "_" s6))))))
    with ("price" ++ String "_" s6)%string.
  unfold pair_label. rewrite split_app by reflexivity.
  destruct (split "_" s6) as [|h t] eqn:E;
    [now apply split_nonempty in E|].
  destruct (@last_n_2 _ ("price" :: h :: t)) as (a & b & ->);
    [simpl; lia|].
  eexists. reflexivity.
Qed.

Lemma spread_cols_in_columns df col :
  In col (spread_cols df) -> In col (columns df) /\ is_spread col = true.
Proof. unfold spread_cols. intros H. now apply filter_In in H. Qed.

Section AnalysisFacts.
Variable fs : string -> option DataFrame.
Variable parse_datetime : option string -> cell -> option datetime.
Variable adfuller : column -> result adf_output.

Local Abbreviation analyze :=
  (analyze_spread_combinations fs parse_datetime adfuller).

(** What every stored test result satisfies. *)
Definition entry_ok (kv : string * adf_result) : Prop :=
  series_name (snd kv) = fst kv /\
  is_stationary (snd kv) = PrimFloat.leb (p_value (snd kv)) 0.05.

Lemma test_column_inv df acc col acc' :
  test_column adfuller df acc col = Ok acc' ->
  exists label c out,
    pair_label col = Ok label /\ get_col col df = Ok c /\
    adfuller (dropna c) = Ok out /\
    acc' = dict_set label
             (mk_adf_result label (out_adfstat out) (out_pvalue out)
                (out_crit out) (PrimFloat.leb (out_pvalue out) 0.05)) acc.
Proof.
  unfold test_column, perform_adf_test.
  destruct (pair_label col) as [label|] eqn:Hl; cbn [bind]; [|discriminate].
  destruct (get_col col df) as [c|] eqn:Hc; cbn [bind]; [|discriminate].
  destruct (adfuller (dropna c)) as [out|] eqn:Ha; cbn [bind];
    [|discriminate].
  intros [= <-]. exists label, c, out. auto.
Qed.

Lemma length_dict_set {V} k (v : V) d :
  List.length (dict_set k v d) <= S (List.length d).
Proof.
  induction d as [|[k0 v0] d IH]; simpl; [lia|].
  destruct (String.eqb k0 k); simpl; lia.
Qed.

Lemma column_loop_inv df cols acc R :
  for_each cols (test_column adfuller df) acc = Ok R ->
  NoDup (keys acc) -> Forall entry_ok acc ->
  NoDup (keys R) /\ Forall entry_ok R /\
  List.length R <= List.length acc + List.length cols /\
  (forall k, In k (keys R) ->
             In k (keys acc) \/
             exists col, In col cols /\ pair_label col = Ok k).
Proof.
  revert acc. induction cols as [|col cols IH]; intros acc; simpl.
  - intros [= <-] Hnd Hok. repeat split; auto. lia.
  - destruct (test_column adfuller df acc col) as [acc1|] eqn:E;
      cbn [bind]; [|discriminate].
    intros HR Hnd Hok.
    apply test_column_inv in E as (label & c & out & Hl & _ & _ & ->).
    destruct (IH _ HR) as (H1 & H2 & H3 & H4).
    + now apply keys_dict_set_nodup.
    + apply Forall_dict_set; [exact Hok|]. split; reflexivity.
    + split; [exact H1|]. split; [exact H2|]. split.
      * pose proof (length_dict_set label
                      (mk_adf_result label (out_adfstat out) (out_pvalue out)
                         (out_crit out)
                         (PrimFloat.leb (out_pvalue out) 0.05)) acc).
        lia.
      * intros k Hk. destruct (H4 k Hk) as [Hin|(col' & Hin & Hlab)].
        -- apply keys_dict_set_in in Hin as [->|Hin]; [|now left].
           right. exists col. split; [now left | exact Hl].
        -- right. exists col'. split; [now right | exact Hlab].
Qed.

(** X15: when the analysis of a family returns, its mapping has pairwise
    different keys, at most one entry per spread column, every key is the
    label of a spread column of the loaded table, and every entry records
    its own key as [series_name] and a verdict equal to
    [p_value <= 0.05]. *)
Theorem analysis_result_invariants ft R :
  analyze ft = Ok R ->
  exists df,
    load_data fs parse_datetime ft = Ok df /\
    NoDup (keys R) /\
    Forall entry_ok R /\
    List.length R <= List.length (spread_cols df) /\
    forall k, In k (keys R) ->
      exists col, In col (spread_cols df) /\ pair_label col = Ok k.
Proof.
  unfold analyze_spread_combinations.
  destruct (load_data fs parse_datetime ft) as [df|]; cbn [bind];
    [|discriminate].
  intros H. exists df. split; [reflexivity|].
  destruct (@column_loop_inv df _ [] R H) as (H1 & H2 & H3 & H4);
    [constructor | constructor |].
  split; [exact H1|]. split; [exact H2|]. split; [exact H3|].
  intros k Hk. destruct (H4 k Hk) as [[]|Hc]. exact Hc.
Qed.

Lemma column_loop_failure df cols acc e :
  (forall col, In col cols -> In col (spread_cols df)) ->
  for_each cols (test_column adfuller df) acc = Raise e ->
  exists col c,
    In col cols /\ get_col col df = Ok c /\ adfuller (dropna c) = Raise e.
Proof.
  revert acc. induction cols as [|col cols IH]; intros acc Hsub; simpl;
    [discriminate|].
  destruct (test_column adfuller df acc col) as [acc1|e1] eqn:E; cbn [bind].
  - intros H. destruct (IH acc1) as (col' & c & Hin & Hg & Ha); auto.
    + intros x Hx. apply Hsub. now right.
    + exists col', c. auto.
  - intros [= ->].
    destruct (@spread_cols_in_columns df col (Hsub col (or_introl eq_refl)))
      as [Hcol Hsp].
    destruct (@pair_label_total col Hsp) as [label Hl].
    destruct (@get_col_in_columns col df Hcol) as [c Hc].
    unfold test_column, perform_adf_test in E. rewrite Hl, Hc in E.
    cbn [bind] in E.
    destruct (adfuller (dropna c)) as [out|e2] eqn:Ha; cbn [bind] in E;
      [discriminate E|].
    injection E as ->. exists col, c. auto.
Qed.

(** X16: the analysis of a family can fail only because [load_data] fails
    or because [adfuller] raises on one of the spread columns; deriving the
    label and fetching the column never fail.  The exception is the one
    that [load_data] or [adfuller] raised. *)
Theorem analysis_failure_causes ft e :
  analyze ft = Raise e ->
  load_data fs parse_datetime ft = Raise e \/
  exists df col c,
    load_data fs parse_datetime ft = Ok df /\
    In col (spread_cols df) /\
    get_col col df = Ok c /\
    adfuller (dropna c) = Raise e.
Proof.
  unfold analyze_spread_combinations.
  destruct (load_data fs parse_datetime ft) as [df|e0]; cbn [bind].
  - intros H. right.
    destruct (@column_loop_failure df _ [] e (fun col H => H) H)
      as (col & c & Hin & Hg & Ha).
    exists df, col, c. auto.
  - intros [= ->]. now left.
Qed.

End AnalysisFacts.

Definition example_if_results : dict adf_result :=
  Eval vm_compute in
    match analyze_spread_combinations example_data_fs simple_parse_datetime
            toy_adfuller "if" with
    | Ok R => R
    | Raise _ => []
    end.

Lemma analysis_result_invariants_witness :
  exists df,
    load_data example_data_fs simple_parse_datetime "if" = Ok df /\
    NoDup (keys example_if_results) /\
    Forall entry_ok example_if_results /\
    List.length example_if_results <= List.length (spread_cols df) /\
    forall k, In k (keys example_if_results) ->
      exists col, In col (spread_cols df) /\ pair_label col = Ok k.
Proof.
  exact (@analysis_result_invariants example_data_fs simple_parse_datetime
           toy_adfuller "if" example_if_results eq_refl).
Defined.

Lemma analysis_failure_causes_witness :
  load_data example_data_fs simple_parse_datetime "ih"
    = Raise (ValueError "Invalid input, x is constant") \/
  exists df col c,
    load_data example_data_fs simple_parse_datetime "ih" = Ok df /\
    In col (spread_cols df) /\
    get_col col df = Ok c /\
    toy_adfuller (dropna c) = Raise (ValueError "Invalid input, x is constant").
Proof.
  exact (@analysis_failure_causes example_data_fs simple_parse_datetime
           toy_adfuller "ih" (ValueError "Invalid input, x is constant")
           eq_refl).
Defined.

(** ** The batch and the summary table, continued *)




Section BatchFacts.
Variable fs : string -> option DataFrame.
Variable parse_datetime : option string -> cell -> option datetime.
Variable adfuller : column -> result adf_output.

Local Abbreviation analyze :=
  (analyze_spread_combinations fs parse_datetime adfuller).
Local Abbreviation run_all := (analyze_all_futures fs parse_datetime adfuller).
Local Abbreviation summary :=
  (generate_summary_table fs parse_datetime adfuller).




Lemma fold_after_family_all_fail fts acc :
  (forall ft, In ft fts -> is_ok (analyze ft) = false) ->
  fold_left (after_family fs parse_datetime adfuller) fts acc = acc.
Proof.
  revert acc. induction fts as [|ft fts IH]; intros acc H; simpl;
    [reflexivity|].
  unfold after_family at 2.
  pose proof (H ft (or_introl eq_refl)) as Hft.
  destruct (analyze ft); [discriminate Hft|].
  apply IH. intros x Hx. apply H. now right.
Qed.

(** X18: when the analysis of every configured family fails, the batch
    returns an empty mapping, and [generate_summary_table] returns an empty
    table and leaves the results empty (so that the next call analyses
    again). *)
Theorem all_families_fail (fts : list string) :
  (forall ft, In ft (map lower fts) -> is_ok (analyze ft) = false) ->
  run_all (init fts) = Ok (init fts, []) /\
  summary (init fts) = Ok (init fts, []).
Proof.
  intros H. split.
  - rewrite analyze_all_futures_total. simpl.
    now rewrite fold_after_family_all_fail.
  - rewrite summary_total. simpl.
    now rewrite fold_after_family_all_fail.
Qed.

(** X19: [generate_summary_table] is idempotent: called again on the
    analyzer it leaves behind, it returns the same table and the same
    analyzer. *)
Theorem generate_summary_table_idempotent self self' T :
  generate_summary_table fs parse_datetime adfuller self = Ok (self', T) ->
  generate_summary_table fs parse_datetime adfuller self' = Ok (self', T).
Proof.
  rewrite summary_total. intros [= <- <-].
  rewrite summary_total.
  destruct (results self) as [|x R] eqn:E; simpl.
  - destruct (fold_left (after_family fs parse_datetime adfuller)
                        (futures_types self) []) eqn:E'; simpl;
      now rewrite ?E'.
  - now rewrite E.
Qed.


End BatchFacts.


Lemma all_families_fail_witness :
  analyze_all_futures example_data_fs simple_parse_datetime toy_adfuller
    (init ["IC"; "ih"]) = Ok (init ["IC"; "ih"], []) /\
  generate_summary_table example_data_fs simple_parse_datetime toy_adfuller
    (init ["IC"; "ih"]) = Ok (init ["IC"; "ih"], []).
Proof.
  apply all_families_fail. simpl. intros ft [<-|[<-|[]]]; reflexivity.
Defined.

Lemma generate_summary_table_idempotent_witness :
  exists self' T,
    generate_summary_table example_data_fs simple_parse_datetime toy_adfuller
      (init default_futures_types) = Ok (self', T) /\
    generate_summary_table example_data_fs simple_parse_datetime toy_adfuller
      self' = Ok (self', T).
Proof.
  eexists _, _. split; [vm_compute; reflexivity|].
  apply (@generate_summary_table_idempotent example_data_fs
           simple_parse_datetime toy_adfuller (init default_futures_types)).
  vm_compute. reflexivity.
Defined.

(** ** The symbol's case in the builder *)

Lemma leg_path_upper ft i : leg_path (upper ft) i = leg_path ft i.
Proof. unfold leg_path. now rewrite upper_idem. Qed.

Lemma leg_loaded_upper fs ft i ds c :
  leg_loaded fs ft i ds c -> leg_loaded fs (upper ft) i ds c.
Proof.
  intros (df & F & D & C). exists df. rewrite leg_path_upper. auto.
Qed.

(** X21: the case of the symbol given to [process_futures_data] selects
    the column names only: for the upper-cased symbol the same four files
    are read, the call fails with the same exception or returns a table
    with the same data column by column, whose columns are named after the
    upper-cased symbol. *)
Theorem builder_symbol_case fs parse_datetime ft ds0 ds1 ds2 ds3 c0 c1 c2 c3 :
  leg_loaded fs ft 0 ds0 c0 -> leg_loaded fs ft 1 ds1 c1 ->
  leg_loaded fs ft 2 ds2 c2 -> leg_loaded fs ft 3 ds3 c3 ->
  match process_futures_data fs parse_datetime ft,
        process_futures_data fs parse_datetime (upper ft) with
  | Ok T, Ok T' =>
      map snd T' = map snd T /\
      columns T = "trade_date" :: close_names ft ++ spread_names ft /\
      columns T'
      = "trade_date" :: close_names (upper ft) ++ spread_names (upper ft)
  | Raise e, Raise e' => e = e'
  | _, _ => False
  end.
Proof.
  intros L0 L1 L2 L3.
  rewrite (process_futures_data_eq parse_datetime L0 L1 L2 L3).
  rewrite (process_futures_data_eq parse_datetime
             (leg_loaded_upper L0) (leg_loaded_upper L1)
             (leg_loaded_upper L2) (leg_loaded_upper L3)).
  repeat match goal with
         | |- context [bind ?m _] =>
             match m with
             | sub_col _ _ => destruct m; cbn [bind]; [|reflexivity]
             | to_datetime _ _ _ => destruct m; cbn [bind]; [|reflexivity]
             end
         end.
  repeat split.
Qed.

Lemma builder_symbol_case_witness :
  exists T',
    process_futures_data example_fs simple_parse_datetime "IF" = Ok T' /\
    map snd T' = map snd example_table /\
    In "price_spread_IF0_IF1" (columns T').
Proof.
  pose proof (@builder_symbol_case example_fs simple_parse_datetime "if"
                _ _ _ _ _ _ _ _
                (example_leg_loaded (i := 0) ltac:(lia))
                (example_leg_loaded (i := 1) ltac:(lia))
                (example_leg_loaded (i := 2) ltac:(lia))
                (example_leg_loaded (i := 3) ltac:(lia))) as H.
  rewrite example_table_returned in H.
  change (upper "if") with "IF" in H.
  destruct (process_futures_data example_fs simple_parse_datetime "IF")
    as [T'|e]; [|destruct H].
  destruct H as (Hdata & _ & Hcols).
  exists T'. split; [reflexivity|]. split; [exact Hdata|].
  rewrite Hcols. simpl. auto 10.
Defined.
